(** * Pendulum controller demo: a shallow embedding and its specification

    The development follows the three translation units of the repository:

    - the lifecycle node [PendulumControllerNode] (constructor, subscriptions,
      [realtime_loop], [log_controller_state] and the lifecycle callbacks);
    - the executable's [main], which configures the real-time thread and
      locks memory;
    - the plant simulator [MotorSim].

    C++ [double] is IEEE 754 binary64: it is modelled by Rocq's primitive
    floats, whose operations are the binary64 ones.  The linear feedback law
    is stated over a small class of scalars so that it can be evaluated both
    in binary64 and in exact rational arithmetic. *)

From Stdlib Require Import ZArith QArith Floats Lia.
From stdpp Require Import base option list gmap strings.

#[local] Set Warnings "-inexact-float".
#[local] Open Scope Z_scope.

(** ** Scalars *)

Module Scalar.

Class Scalar (T : Type) := {
  s_zero : T;
  s_add : T -> T -> T;
  s_sub : T -> T -> T;
  s_mul : T -> T -> T
}.

(** The code's [double]. *)
#[global] Instance binary64 : Scalar float := {|
  s_zero := 0%float;
  s_add := PrimFloat.add;
  s_sub := PrimFloat.sub;
  s_mul := PrimFloat.mul
|}.

(** Exact arithmetic, for the spec's worked examples. *)
#[global] Instance rational : Scalar Q := {|
  s_zero := 0%Q;
  s_add := Qplus;
  s_sub := Qminus;
  s_mul := Qmult
|}.

End Scalar.
Export Scalar.

(** ** The feedback controller *)

Module Controller.
Section Controller.
Context {T : Type} `{Scalar T}.

(** PlantState of the data model, as [set_state] receives it. *)
Record PlantState := {
  cart_position : T;
  cart_velocity : T;
  pole_angle : T;
  pole_velocity : T
}.

(** TeleopSetpoint of the data model, as [set_teleop] receives it. *)
Record TeleopSetpoint := {
  cart_position_target : T;
  cart_velocity_target : T
}.

(** [PendulumController::Config]: the feedback gain. *)
Record Config := {
  feedback_matrix : list T
}.

(** Modelled from the spec: [PendulumController::Config]'s constructor is
    declared in a header that is not among the sources; "construction fails
    if FeedbackGain has the wrong arity". *)
Definition Config_new (gain : list T) : option Config :=
  if (Z.of_nat (length gain) =? 4) then Some {| feedback_matrix := gain |} else None.

Record PendulumController := {
  cfg_ : Config;
  state_ : PlantState;
  teleop_ : TeleopSetpoint;
  force_command_ : T
}.

Definition zero_state : PlantState :=
  {| cart_position := s_zero; cart_velocity := s_zero;
     pole_angle := s_zero; pole_velocity := s_zero |}.

Definition zero_teleop : TeleopSetpoint :=
  {| cart_position_target := s_zero; cart_velocity_target := s_zero |}.

(** Modelled from the spec: the class [PendulumController] (its .cpp and .hpp)
    is not among the sources.  The definitions from here to [get_force_command]
    follow section 4.1: a freshly built controller is at the reset baseline. *)
Definition PendulumController_new (cfg : Config) : PendulumController :=
  {| cfg_ := cfg; state_ := zero_state; teleop_ := zero_teleop;
     force_command_ := s_zero |}.

(** Modelled from the spec: "set_state(plant_state): records latest sensed
    state; no validation beyond type; overwrites previous value". *)
Definition set_state (x v theta omega : T) (c : PendulumController)
  : PendulumController :=
  {| cfg_ := cfg_ c;
     state_ := {| cart_position := x; cart_velocity := v;
                  pole_angle := theta; pole_velocity := omega |};
     teleop_ := teleop_ c;
     force_command_ := force_command_ c |}.

(** Modelled from the spec: "set_teleop(position, velocity): records latest
    operator setpoint; overwrite semantics". *)
Definition set_teleop (p v : T) (c : PendulumController) : PendulumController :=
  {| cfg_ := cfg_ c;
     state_ := state_ c;
     teleop_ := {| cart_position_target := p; cart_velocity_target := v |};
     force_command_ := force_command_ c |}.

(** Modelled from the spec: "error_vector = [cart_position - teleop.position,
    cart_velocity - teleop.velocity, pole_angle, pole_angular_velocity]". *)
Definition error_vector (s : PlantState) (t : TeleopSetpoint) : list T :=
  [ s_sub (cart_position s) (cart_position_target t);
    s_sub (cart_velocity s) (cart_velocity_target t);
    pole_angle s;
    pole_velocity s ].

(** The product [G . e], accumulated from zero, one term per coefficient. *)
Definition dot (g e : list T) : T :=
  fold_left (fun acc ge => s_add acc (s_mul (fst ge) (snd ge))) (zip g e) s_zero.

(** Modelled from the spec: "command = FeedbackGain . error_vector". *)
Definition control_law (g : list T) (s : PlantState) (t : TeleopSetpoint) : T :=
  dot g (error_vector s t).

(** Modelled from the spec: "update(): computes command = FeedbackGain .
    error_vector.  Side effect: stores result for get_force_command()". *)
Definition update (c : PendulumController) : PendulumController :=
  {| cfg_ := cfg_ c;
     state_ := state_ c;
     teleop_ := teleop_ c;
     force_command_ := control_law (feedback_matrix (cfg_ c)) (state_ c) (teleop_ c) |}.

(** Modelled from the spec: "reset(): clears teleop setpoint and any
    accumulated state to a known baseline (zero), without altering
    FeedbackGain". *)
Definition reset (c : PendulumController) : PendulumController :=
  {| cfg_ := cfg_ c;
     state_ := zero_state;
     teleop_ := zero_teleop;
     force_command_ := s_zero |}.

(** Modelled from the spec: "get_state(), get_teleop(), get_force_command():
    pure accessors".  The node indexes the first two as vectors. *)
Definition get_state (c : PendulumController) : list T :=
  [ cart_position (state_ c); cart_velocity (state_ c);
    pole_angle (state_ c); pole_velocity (state_ c) ].

Definition get_teleop (c : PendulumController) : list T :=
  [ cart_position_target (teleop_ c); cart_velocity_target (teleop_ c) ].

Definition get_force_command (c : PendulumController) : T := force_command_ c.

End Controller.

Arguments PlantState T : clear implicits.
Arguments TeleopSetpoint T : clear implicits.
Arguments Config T : clear implicits.
Arguments PendulumController T : clear implicits.

End Controller.

(** ** Process settings ([pendulum::utils]) *)

Module Utils.

(** [pendulum::utils::ProcessSettings]: the node builds it from five
    parameters, in this order, and [main] reads the first four fields. *)
Record ProcessSettings := {
  lock_memory : bool;
  process_priority : Z;
  cpu_affinity : Z;
  lock_memory_size_mb : Z;
  configure_child_threads : bool
}.

(** What a recording OS layer sees. *)
Inductive OsCall :=
| set_scheduling_priority (priority : Z)
| set_cpu_affinity (cpu : Z)
| lock_memory_pages (megabytes : Z).

(** Modelled from the spec: [configure_process_priority] lives in
    pendulum_utils, which is not among the sources.  Section 4.2: it "sets the
    calling thread's scheduling priority and binds it to a specified logical
    CPU"; "a value of 0 for either means leave at OS default". *)
Definition configure_process_priority (priority affinity : Z) : list OsCall :=
  (if priority =? 0 then [] else [set_scheduling_priority priority]) ++
  (if affinity =? 0 then [] else [set_cpu_affinity affinity]).

(** Modelled from the spec: [lock_process_memory] lives in pendulum_utils,
    which is not among the sources.  Section 4.2: "locks a specified amount of
    process memory (in megabytes)". *)
Definition lock_process_memory (megabytes : Z) : list OsCall :=
  [lock_memory_pages megabytes].

End Utils.

(** ** Messages *)

Module JointState.
Record msg := {
  cart_position : float;
  cart_velocity : float;
  pole_angle : float;
  pole_velocity : float
}.
End JointState.

Module PendulumTeleop.
Record msg := {
  cart_position : float;
  cart_velocity : float
}.
End PendulumTeleop.

Module JointCommand.
Record msg := {
  force : float
}.
End JointCommand.

(** ** Managed-node vocabulary ([lifecycle_msgs], [rclcpp_lifecycle]) *)

Module Lifecycle.

Inductive State := Unconfigured | Inactive | Active | Finalized.

(** [lifecycle_msgs::msg::State]: the ids of the primary states. *)
Definition PRIMARY_STATE_UNCONFIGURED : Z := 1.
Definition PRIMARY_STATE_INACTIVE : Z := 2.
Definition PRIMARY_STATE_ACTIVE : Z := 3.
Definition PRIMARY_STATE_FINALIZED : Z := 4.

Definition id (s : State) : Z :=
  match s with
  | Unconfigured => PRIMARY_STATE_UNCONFIGURED
  | Inactive => PRIMARY_STATE_INACTIVE
  | Active => PRIMARY_STATE_ACTIVE
  | Finalized => PRIMARY_STATE_FINALIZED
  end.

Inductive Transition := Configure | Cleanup | Activate | Deactivate | Shutdown.

Inductive CallbackReturn := SUCCESS | FAILURE | ERROR.

(** [rclcpp_lifecycle::LifecyclePublisher]: a publisher with an activation
    flag.  Section 4.3 has activate "enable output publication" and deactivate
    "disable output publication"; section 4.4 has publication "a no-op"
    while the publisher is not enabled. *)
Record LifecyclePublisher := {
  enabled_ : bool;
  published : list JointCommand.msg
}.

Definition create_publisher : LifecyclePublisher :=
  {| enabled_ := false; published := [] |}.

Definition on_activate (p : LifecyclePublisher) : LifecyclePublisher :=
  {| enabled_ := true; published := published p |}.

Definition on_deactivate (p : LifecyclePublisher) : LifecyclePublisher :=
  {| enabled_ := false; published := published p |}.

Definition publish (m : JointCommand.msg) (p : LifecyclePublisher)
  : LifecyclePublisher :=
  if enabled_ p
  then {| enabled_ := enabled_ p; published := published p ++ [m] |}
  else p.

(** The primary-state graph of a managed node, as [LifecycleNode] inherits it
    and section 4.3 describes it: the goal state of transition [t] requested
    in state [s], or [None] when the request is rejected.  Shutdown is
    accepted in every state but Finalized, and from Active it runs
    [on_shutdown] alone. *)
Definition goal_state (s : State) (t : Transition) : option State :=
  match s, t with
  | Unconfigured, Configure => Some Inactive
  | Inactive, Cleanup => Some Unconfigured
  | Inactive, Activate => Some Active
  | Active, Deactivate => Some Inactive
  | Unconfigured, Shutdown | Inactive, Shutdown | Active, Shutdown => Some Finalized
  | _, _ => None
  end.

End Lifecycle.

(** ** Parameters and exceptions ([rclcpp]) *)

Module Rclcpp.

Inductive exception :=
| InvalidParameterTypeException (name : string)
| invalid_argument
| out_of_range
| runtime_error (what : string).

(** A computation that returns or throws. *)
Definition Result (A : Type) : Type := exception + A.

#[global] Instance Result_ret : MRet Result := fun A x => inr x.
#[global] Instance Result_bind : MBind Result := fun A B f r =>
  match r with
  | inl e => inl e
  | inr x => f x
  end.

Inductive ParameterValue :=
| PARAMETER_STRING (s : string)
| PARAMETER_INTEGER (z : Z)
| PARAMETER_BOOL (b : bool)
| PARAMETER_DOUBLE_ARRAY (l : list float).

(** [NodeOptions]: the parameter overrides the node is started with. *)
Definition NodeOptions : Type := gmap string ParameterValue.

Definition as_string (v : ParameterValue) : option string :=
  match v with PARAMETER_STRING s => Some s | _ => None end.
Definition as_integer (v : ParameterValue) : option Z :=
  match v with PARAMETER_INTEGER z => Some z | _ => None end.
Definition as_bool (v : ParameterValue) : option bool :=
  match v with PARAMETER_BOOL b => Some b | _ => None end.
Definition as_double_array (v : ParameterValue) : option (list float) :=
  match v with PARAMETER_DOUBLE_ARRAY l => Some l | _ => None end.

(** [declare_parameter<A>(name, default_value)]: the override when there is
    one of the declared type, the default when there is none. *)
Definition declare_parameter {A : Type} (get : ParameterValue -> option A)
    (overrides : NodeOptions) (name : string) (default_value : A) : Result A :=
  match overrides !! name with
  | None => inr default_value
  | Some v =>
      match get v with
      | Some x => inr x
      | None => inl (InvalidParameterTypeException name)
      end
  end.

(** [std::chrono] durations, as a count of nanoseconds. *)
Definition nanoseconds (n : Z) : Z := n.
Definition microseconds (n : Z) : Z := 1000 * n.
Definition milliseconds (n : Z) : Z := 1000000 * n.

(** One record of the logging sink: the format string and its arguments. *)
Inductive LogArg :=
| arg_double (x : float)
| arg_unsigned (n : Z).

Record LogRecord := {
  format : string;
  args : list LogArg
}.

End Rclcpp.

(** ** The lifecycle node [PendulumControllerNode] *)

Module Node.
Import Rclcpp.

Record PendulumControllerNode := {
  (* inherited from LifecycleNode *)
  current_state : Lifecycle.State;
  logger : list LogRecord;
  (* the node's own members *)
  state_topic_name_ : string;
  command_topic_name_ : string;
  teleop_topic_name_ : string;
  deadline_duration_ : Z;
  controller_ : Controller.PendulumController float;
  num_missed_deadlines_ : Z;
  auto_start_node_ : bool;
  proc_settings_ : Utils.ProcessSettings;
  command_message_ : JointCommand.msg;
  command_pub_ : Lifecycle.LifecyclePublisher
}.

Definition set_current_state (s : Lifecycle.State) (n : PendulumControllerNode) :=
  {| current_state := s; logger := logger n;
     state_topic_name_ := state_topic_name_ n;
     command_topic_name_ := command_topic_name_ n;
     teleop_topic_name_ := teleop_topic_name_ n;
     deadline_duration_ := deadline_duration_ n;
     controller_ := controller_ n;
     num_missed_deadlines_ := num_missed_deadlines_ n;
     auto_start_node_ := auto_start_node_ n;
     proc_settings_ := proc_settings_ n;
     command_message_ := command_message_ n;
     command_pub_ := command_pub_ n |}.

Definition set_logger (l : list LogRecord) (n : PendulumControllerNode) :=
  {| current_state := current_state n; logger := l;
     state_topic_name_ := state_topic_name_ n;
     command_topic_name_ := command_topic_name_ n;
     teleop_topic_name_ := teleop_topic_name_ n;
     deadline_duration_ := deadline_duration_ n;
     controller_ := controller_ n;
     num_missed_deadlines_ := num_missed_deadlines_ n;
     auto_start_node_ := auto_start_node_ n;
     proc_settings_ := proc_settings_ n;
     command_message_ := command_message_ n;
     command_pub_ := command_pub_ n |}.

Definition set_controller_ (c : Controller.PendulumController float)
    (n : PendulumControllerNode) :=
  {| current_state := current_state n; logger := logger n;
     state_topic_name_ := state_topic_name_ n;
     command_topic_name_ := command_topic_name_ n;
     teleop_topic_name_ := teleop_topic_name_ n;
     deadline_duration_ := deadline_duration_ n;
     controller_ := c;
     num_missed_deadlines_ := num_missed_deadlines_ n;
     auto_start_node_ := auto_start_node_ n;
     proc_settings_ := proc_settings_ n;
     command_message_ := command_message_ n;
     command_pub_ := command_pub_ n |}.

Definition set_num_missed_deadlines_ (k : Z) (n : PendulumControllerNode) :=
  {| current_state := current_state n; logger := logger n;
     state_topic_name_ := state_topic_name_ n;
     command_topic_name_ := command_topic_name_ n;
     teleop_topic_name_ := teleop_topic_name_ n;
     deadline_duration_ := deadline_duration_ n;
     controller_ := controller_ n;
     num_missed_deadlines_ := k;
     auto_start_node_ := auto_start_node_ n;
     proc_settings_ := proc_settings_ n;
     command_message_ := command_message_ n;
     command_pub_ := command_pub_ n |}.

Definition set_command_message_ (m : JointCommand.msg) (n : PendulumControllerNode) :=
  {| current_state := current_state n; logger := logger n;
     state_topic_name_ := state_topic_name_ n;
     command_topic_name_ := command_topic_name_ n;
     teleop_topic_name_ := teleop_topic_name_ n;
     deadline_duration_ := deadline_duration_ n;
     controller_ := controller_ n;
     num_missed_deadlines_ := num_missed_deadlines_ n;
     auto_start_node_ := auto_start_node_ n;
     proc_settings_ := proc_settings_ n;
     command_message_ := m;
     command_pub_ := command_pub_ n |}.

Definition set_command_pub_ (p : Lifecycle.LifecyclePublisher)
    (n : PendulumControllerNode) :=
  {| current_state := current_state n; logger := logger n;
     state_topic_name_ := state_topic_name_ n;
     command_topic_name_ := command_topic_name_ n;
     teleop_topic_name_ := teleop_topic_name_ n;
     deadline_duration_ := deadline_duration_ n;
     controller_ := controller_ n;
     num_missed_deadlines_ := num_missed_deadlines_ n;
     auto_start_node_ := auto_start_node_ n;
     proc_settings_ := proc_settings_ n;
     command_message_ := command_message_ n;
     command_pub_ := p |}.

(** *** The constructor *)

Definition default_feedback_matrix : list float :=
  [ (-10.0000)%float; (-51.5393)%float; 356.8637%float; 154.4146%float ].

(** The member initialisers, one [declare_parameter] each, then the three
    [create_*] calls; the node starts unconfigured, with nothing logged, a
    zero command message and a publisher that is not activated.  The integer
    parameters are declared as 16-bit unsigned; their range is not
    restricted here.  The five "proc_settings" parameters are arguments of
    one constructor call, so the order in which they are declared is the
    compiler's; they are taken in source order here, which decides only which
    exception is reported when more than one of them is ill-typed. *)
Definition PendulumControllerNode_new (options : NodeOptions)
  : Result PendulumControllerNode :=
  state_topic ← declare_parameter as_string options "state_topic_name" "pendulum_joint_states";
  command_topic ← declare_parameter as_string options "command_topic_name" "joint_command";
  teleop_topic ← declare_parameter as_string options "teleop_topic_name" "teleop";
  deadline_us ← declare_parameter as_integer options "deadline_us" 2000;
  gain ← declare_parameter as_double_array options "controller.feedback_matrix"
           default_feedback_matrix;
  cfg ← match Controller.Config_new gain with
        | Some cfg => inr cfg
        | None => inl invalid_argument
        end;
  auto_start ← declare_parameter as_bool options "auto_start_node" false;
  lock ← declare_parameter as_bool options "proc_settings.lock_memory" false;
  priority ← declare_parameter as_integer options "proc_settings.process_priority" 0;
  affinity ← declare_parameter as_integer options "proc_settings.cpu_affinity" 0;
  size_mb ← declare_parameter as_integer options "proc_settings.lock_memory_size_mb" 0;
  child_threads ← declare_parameter as_bool options
                    "proc_settings.configure_child_threads" false;
  mret {| current_state := Lifecycle.Unconfigured;
          logger := [];
          state_topic_name_ := state_topic;
          command_topic_name_ := command_topic;
          teleop_topic_name_ := teleop_topic;
          deadline_duration_ := milliseconds deadline_us;
          controller_ := Controller.PendulumController_new cfg;
          num_missed_deadlines_ := 0;
          auto_start_node_ := auto_start;
          proc_settings_ :=
            {| Utils.lock_memory := lock;
               Utils.process_priority := priority;
               Utils.cpu_affinity := affinity;
               Utils.lock_memory_size_mb := size_mb;
               Utils.configure_child_threads := child_threads |};
          command_message_ := {| JointCommand.force := 0%float |};
          command_pub_ := Lifecycle.create_publisher |}.

(** *** Member functions: state of the node threaded through, exceptions
    propagated *)

Definition NodeM (A : Type) : Type :=
  PendulumControllerNode -> Result (A * PendulumControllerNode).

#[global] Instance NodeM_ret : MRet NodeM := fun A x n => inr (x, n).
#[global] Instance NodeM_bind : MBind NodeM := fun A B f m n =>
  match m n with
  | inl e => inl e
  | inr (x, n') => f x n'
  end.

Definition this : NodeM PendulumControllerNode := fun n => inr (n, n).
Definition modify (f : PendulumControllerNode -> PendulumControllerNode)
  : NodeM unit := fun n => inr (tt, f n).
Definition throw {A : Type} (e : exception) : NodeM A := fun _ => inl e.

(** [std::vector::at]. *)
Definition at_ (v : list float) (i : nat) : NodeM float :=
  match v !! i with
  | Some x => mret x
  | None => throw out_of_range
  end.

Definition RCLCPP_INFO (fmt : string) (a : list LogArg) : NodeM unit :=
  modify (fun n => set_logger (logger n ++ [{| format := fmt; args := a |}]) n).

(** [create_teleoperation_subscription]: the callback. *)
Definition on_pendulum_teleop (m : PendulumTeleop.msg) : NodeM unit :=
  modify (fun n =>
    set_controller_
      (Controller.set_teleop (PendulumTeleop.cart_position m)
         (PendulumTeleop.cart_velocity m) (controller_ n)) n).

(** [create_state_subscription]: the callback. *)
Definition on_sensor_message (m : JointState.msg) : NodeM unit :=
  (* update pendulum state *)
  modify (fun n =>
    set_controller_
      (Controller.set_state (JointState.cart_position m) (JointState.cart_velocity m)
         (JointState.pole_angle m) (JointState.pole_velocity m) (controller_ n)) n);;
  (* update pendulum controller output *)
  modify (fun n => set_controller_ (Controller.update (controller_ n)) n);;
  (* publish pendulum force command *)
  modify (fun n =>
    set_command_message_
      {| JointCommand.force := Controller.get_force_command (controller_ n) |} n);;
  modify (fun n =>
    set_command_pub_ (Lifecycle.publish (command_message_ n) (command_pub_ n)) n).

(** What one [wait_set.wait(deadline_duration_)] gives the loop: the kind of
    the result and, when ready, whether the subscription's slot is set and
    what [take] then returns. *)
Inductive WaitResult :=
| Ready (subscription0 : bool) (taken : option JointState.msg)
| Timeout
| Empty.

Section RealtimeLoop.

(** The width of [num_missed_deadlines_], an unsigned integer (it is
    initialised with [0U] and printed with [%u]); its declaration is in the
    node's header, which is not among the sources. *)
Variable counter_bits : N.

Definition increment (k : Z) : Z := (k + 1) mod 2 ^ Z.of_N counter_bits.

(** The body of [while (rclcpp::ok())] in [realtime_loop]. *)
Definition realtime_loop_body (wait_result : WaitResult) : NodeM unit :=
  match wait_result with
  | Ready subscription0 taken =>
      if subscription0 then
        match taken with
        | Some m => on_sensor_message m
        | None => mret tt  (* msg not valid *)
        end
      else mret tt
  | Timeout =>
      n ← this;
      if Lifecycle.id (current_state n) =? Lifecycle.PRIMARY_STATE_ACTIVE then
        modify (fun n => set_num_missed_deadlines_ (increment (num_missed_deadlines_ n)) n)
      else mret tt
  | Empty => mret tt
  end.

(** [realtime_loop]: one body per wait result, for as long as
    [rclcpp::ok()]. *)
Fixpoint realtime_loop (wait_results : list WaitResult) : NodeM unit :=
  match wait_results with
  | [] => mret tt
  | w :: rest => realtime_loop_body w;; realtime_loop rest
  end.

End RealtimeLoop.

Definition log_controller_state : NodeM unit :=
  n ← this;
  let state := Controller.get_state (controller_ n) in
  let teleoperation_command := Controller.get_teleop (controller_ n) in
  let force_command := Controller.get_force_command (controller_ n) in
  x ← at_ state 0; RCLCPP_INFO "Cart position = %lf" [arg_double x];;
  x ← at_ state 1; RCLCPP_INFO "Cart velocity = %lf" [arg_double x];;
  x ← at_ state 2; RCLCPP_INFO "Pole angle = %lf" [arg_double x];;
  x ← at_ state 3; RCLCPP_INFO "Pole angular velocity = %lf" [arg_double x];;
  x ← at_ teleoperation_command 0;
  RCLCPP_INFO "Teleoperation cart position = %lf" [arg_double x];;
  x ← at_ teleoperation_command 1;
  RCLCPP_INFO "Teleoperation cart velocity = %lf" [arg_double x];;
  RCLCPP_INFO "Force command = %lf" [arg_double force_command];;
  n ← this;
  RCLCPP_INFO "Num missed deadlines = %u" [arg_unsigned (num_missed_deadlines_ n)].

Definition on_configure : NodeM Lifecycle.CallbackReturn :=
  RCLCPP_INFO "Configuring" [];;
  (* reset internal state of the controller for a clean start *)
  modify (fun n => set_controller_ (Controller.reset (controller_ n)) n);;
  mret Lifecycle.SUCCESS.

Definition on_activate : NodeM Lifecycle.CallbackReturn :=
  RCLCPP_INFO "Activating" [];;
  modify (fun n => set_command_pub_ (Lifecycle.on_activate (command_pub_ n)) n);;
  mret Lifecycle.SUCCESS.

Definition on_deactivate : NodeM Lifecycle.CallbackReturn :=
  RCLCPP_INFO "Deactivating" [];;
  modify (fun n => set_command_pub_ (Lifecycle.on_deactivate (command_pub_ n)) n);;
  (* log the status to introspect the result *)
  log_controller_state;;
  mret Lifecycle.SUCCESS.

Definition on_cleanup : NodeM Lifecycle.CallbackReturn :=
  RCLCPP_INFO "Cleaning up" [];;
  mret Lifecycle.SUCCESS.

Definition on_shutdown : NodeM Lifecycle.CallbackReturn :=
  RCLCPP_INFO "Shutting down" [];;
  mret Lifecycle.SUCCESS.

(** The callback the managed-node machinery runs for a transition. *)
Definition callback (t : Lifecycle.Transition) : NodeM Lifecycle.CallbackReturn :=
  match t with
  | Lifecycle.Configure => on_configure
  | Lifecycle.Cleanup => on_cleanup
  | Lifecycle.Activate => on_activate
  | Lifecycle.Deactivate => on_deactivate
  | Lifecycle.Shutdown => on_shutdown
  end.

(** A transition request: rejected (nothing runs) when the state graph has no
    such edge; otherwise the callback runs and, on SUCCESS, the node enters
    the goal state.  A callback that does not return SUCCESS leaves the node
    in its source state here: the library's failure and error handling is not
    modelled, and no callback of this node takes that branch. *)
Definition trigger_transition (t : Lifecycle.Transition) : NodeM unit :=
  n ← this;
  match Lifecycle.goal_state (current_state n) t with
  | None => mret tt
  | Some goal =>
      r ← callback t;
      match r with
      | Lifecycle.SUCCESS => modify (set_current_state goal)
      | _ => mret tt
      end
  end.

(** The timeout of [wait_set.wait(deadline_duration_)] in [realtime_loop]. *)
Definition wait_timeout (n : PendulumControllerNode) : Z := deadline_duration_ n.

(** *** The node as the two threads drive it *)

Inductive Event :=
| WaitReturned (w : WaitResult)               (* the real-time thread *)
| TeleopReceived (m : PendulumTeleop.msg)     (* the executor thread *)
| TransitionRequested (t : Lifecycle.Transition).

Definition step (counter_bits : N) (e : Event) : NodeM unit :=
  match e with
  | WaitReturned w => realtime_loop_body counter_bits w
  | TeleopReceived m => on_pendulum_teleop m
  | TransitionRequested t => trigger_transition t
  end.

Fixpoint run (counter_bits : N) (events : list Event) : NodeM unit :=
  match events with
  | [] => mret tt
  | e :: rest => step counter_bits e;; run counter_bits rest
  end.

(** The lifecycle state after an event, and the number of wait timeouts that
    a run sees while the node is active. *)
Definition state_after (s : Lifecycle.State) (e : Event) : Lifecycle.State :=
  match e with
  | TransitionRequested t => default s (Lifecycle.goal_state s t)
  | _ => s
  end.

Fixpoint timeouts_while_active (s : Lifecycle.State) (events : list Event) : Z :=
  match events with
  | [] => 0
  | e :: rest =>
      (match e, s with
       | WaitReturned Timeout, Lifecycle.Active => 1
       | _, _ => 0
       end) + timeouts_while_active (state_after s e) rest
  end.

End Node.

(** ** The executable's [main] *)

Module Main.
Import Rclcpp.

(** The calls [main] makes into [pendulum::utils]. *)
Inductive UtilsCall :=
| call_configure_process_priority (priority affinity : Z)
| call_lock_process_memory (megabytes : Z).

Definition os_calls (c : UtilsCall) : list Utils.OsCall :=
  match c with
  | call_configure_process_priority p a => Utils.configure_process_priority p a
  | call_lock_process_memory mb => Utils.lock_process_memory mb
  end.

(** The lambda of [rt_thread], up to the point where it enters
    [realtime_loop]. *)
Definition rt_thread (proc_settings : Utils.ProcessSettings) : list UtilsCall :=
  [ call_configure_process_priority
      (Utils.process_priority proc_settings) (Utils.cpu_affinity proc_settings) ].

(** The main thread, after it has started the two threads. *)
Definition main_thread (proc_settings : Utils.ProcessSettings) : list UtilsCall :=
  if Utils.lock_memory proc_settings
  then [ call_lock_process_memory (Utils.lock_memory_size_mb proc_settings) ]
  else [].

(** Every call of the process configuration, whichever thread makes it. *)
Definition configuration_calls (proc_settings : Utils.ProcessSettings)
  : list UtilsCall :=
  rt_thread proc_settings ++ main_thread proc_settings.

(** The body of [main]'s try block, up to the configuration calls: the node
    is built, its process settings are read, and the configuration calls are
    made; what the OS layer records.  [inl e] is an exception that leaves the
    block before any call is made; the handlers that then catch it and choose
    the return value are not part of this definition. *)
Definition main (options : NodeOptions) : Result (list Utils.OsCall) :=
  node ← Node.PendulumControllerNode_new options;
  let proc_settings := Node.proc_settings_ node in
  mret (concat (map os_calls (configuration_calls proc_settings))).

End Main.

(** ** The plant simulator [MotorSim] *)

Module pendulum_msgs.
(** [pendulum_msgs::msg::JointCommand], as the simulator receives it. *)
Record JointCommand := {
  position : float
}.
End pendulum_msgs.

Module MotorSim.
Import Rclcpp.
#[local] Open Scope float_scope.

Definition GRAVITY : float := 9.80665.
Definition PI : float := 3.14159265359.

(** Struct representing the physical properties of the pendulum. *)
Record PendulumProperties := {
  mass : float;
  length : float
}.

Definition default_properties : PendulumProperties :=
  {| mass := 0.01; length := 0.5 |}.

(** Struct representing the dynamic/kinematic state of the pendulum. *)
Record PendulumState := {
  position : float;
  velocity : float;
  acceleration : float;
  torque : float
}.

Definition default_state : PendulumState :=
  {| position := 0; velocity := 0; acceleration := 0; torque := 0 |}.

Record MotorSim := {
  publish_period_ : Z;
  dt_ : float;
  properties_ : PendulumProperties;
  state_ : PendulumState
}.

Definition set_position (x : float) (m : MotorSim) : MotorSim :=
  {| publish_period_ := publish_period_ m; dt_ := dt_ m;
     properties_ := properties_ m;
     state_ := {| position := x; velocity := velocity (state_ m);
                  acceleration := acceleration (state_ m);
                  torque := torque (state_ m) |} |}.

Definition set_velocity (x : float) (m : MotorSim) : MotorSim :=
  {| publish_period_ := publish_period_ m; dt_ := dt_ m;
     properties_ := properties_ m;
     state_ := {| position := position (state_ m); velocity := x;
                  acceleration := acceleration (state_ m);
                  torque := torque (state_ m) |} |}.

Definition set_acceleration (x : float) (m : MotorSim) : MotorSim :=
  {| publish_period_ := publish_period_ m; dt_ := dt_ m;
     properties_ := properties_ m;
     state_ := {| position := position (state_ m); velocity := velocity (state_ m);
                  acceleration := x;
                  torque := torque (state_ m) |} |}.

(** The conversion of a 64-bit count to [double], rounded to nearest. *)
Definition double_of_int64 (z : Z) : float :=
  SF2Prim (binary_normalize prec emax z 0 false).

(** The constructor; [period] is the count of nanoseconds. *)
Definition MotorSim_new (period : Z) : Result MotorSim :=
  (* Calculate the controller timestep (for discrete differentiation/integration). *)
  let dt := double_of_int64 period / (1000.0 * 1000.0 * 1000.0) in
  if is_nan dt || (dt =? 0)
  then inl (runtime_error "Invalid dt_ calculated in PendulumController constructor")
  else inr {| publish_period_ := period; dt_ := dt;
              properties_ := default_properties; state_ := default_state |}.

Definition update_motor_command (msg : pendulum_msgs.JointCommand) (m : MotorSim)
  : MotorSim :=
  (* Assume direct, instantaneous position control *)
  let m := set_position (pendulum_msgs.position msg) m in
  (* Enforce position limits *)
  if PI <? position (state_ m) then set_position PI m
  else if position (state_ m) <? 0 then set_position 0 m
  else m.

Section Libm.

(** [std::sin]. *)
Variable sin : float -> float.

Definition update_motor_state (m : MotorSim) : MotorSim :=
  let m := set_acceleration
             (GRAVITY * sin (position (state_ m) - PI / 2.0) / length (properties_ m) +
              torque (state_ m) /
                (mass (properties_ m) * length (properties_ m) * length (properties_ m)))
             m in
  let m := set_velocity (velocity (state_ m) + acceleration (state_ m) * dt_ m) m in
  let m := set_position (position (state_ m) + velocity (state_ m) * dt_ m) m in
  if PI <? position (state_ m) then set_position PI m
  else if position (state_ m) <? 0 then set_position 0 m
  else m.

(** The same step in the words of the interface description, section 6: an
    acceleration from gravity and torque, one Euler step
    "velocity += acceleration.dt; position += velocity.dt", and a clamp to the
    valid angular range. *)
Definition spec_acceleration (p : PendulumProperties) (s : PendulumState) : float :=
  GRAVITY * sin (position s - PI / 2.0) / length p +
  torque s / (mass p * length p * length p).

Definition spec_euler_step (dt a : float) (s : PendulumState) : PendulumState :=
  let v := velocity s + a * dt in
  {| position := position s + v * dt; velocity := v;
     acceleration := a; torque := torque s |}.

End Libm.

Definition spec_clamp (lo hi x : float) : float :=
  if hi <? x then hi else if x <? lo then lo else x.

Definition spec_clamp_position (s : PendulumState) : PendulumState :=
  {| position := spec_clamp 0 PI (position s); velocity := velocity s;
     acceleration := acceleration s; torque := torque s |}.

(** The valid angular range, [0, PI]. *)
Definition in_range (x : float) : bool := (0 <=? x) && (x <=? PI).

End MotorSim.

(** ** Specification-side vocabulary *)

Module NodeSpec.
Import Rclcpp.

(** The diagnostic snapshot of section 6: state, teleop, last command and
    missed-deadline count. *)
Record Snapshot := {
  snapshot_state : list float;
  snapshot_teleop : list float;
  snapshot_command : float;
  snapshot_missed_deadlines : Z
}.

Definition snapshot_of (n : Node.PendulumControllerNode) : Snapshot :=
  {| snapshot_state := Controller.get_state (Node.controller_ n);
     snapshot_teleop := Controller.get_teleop (Node.controller_ n);
     snapshot_command := Controller.get_force_command (Node.controller_ n);
     snapshot_missed_deadlines := Node.num_missed_deadlines_ n |}.

(** The values a sequence of log records carries, in order. *)
Definition logged_values (l : list LogRecord) : list LogArg :=
  concat (map args l).

Definition snapshot_values (s : Snapshot) : list LogArg :=
  map arg_double (snapshot_state s) ++ map arg_double (snapshot_teleop s) ++
  [arg_double (snapshot_command s); arg_unsigned (snapshot_missed_deadlines s)].

(** The snapshot as [log_controller_state] words it. *)
Definition snapshot_formats : list string :=
  [ "Cart position = %lf"; "Cart velocity = %lf"; "Pole angle = %lf";
    "Pole angular velocity = %lf"; "Teleoperation cart position = %lf";
    "Teleoperation cart velocity = %lf"; "Force command = %lf";
    "Num missed deadlines = %u" ].

Definition render (s : Snapshot) : list LogRecord :=
  zip_with (fun f a => {| format := f; args := [a] |})
    snapshot_formats (snapshot_values s).

(** The node as the constructor builds it when no parameter is overridden. *)
Definition initial_node : Node.PendulumControllerNode :=
  {| Node.current_state := Lifecycle.Unconfigured;
     Node.logger := [];
     Node.state_topic_name_ := "pendulum_joint_states";
     Node.command_topic_name_ := "joint_command";
     Node.teleop_topic_name_ := "teleop";
     Node.deadline_duration_ := milliseconds 2000;
     Node.controller_ :=
       Controller.PendulumController_new
         {| Controller.feedback_matrix := Node.default_feedback_matrix |};
     Node.num_missed_deadlines_ := 0;
     Node.auto_start_node_ := false;
     Node.proc_settings_ :=
       {| Utils.lock_memory := false; Utils.process_priority := 0;
          Utils.cpu_affinity := 0; Utils.lock_memory_size_mb := 0;
          Utils.configure_child_threads := false |};
     Node.command_message_ := {| JointCommand.force := 0%float |};
     Node.command_pub_ := Lifecycle.create_publisher |}.

(** What each callback logs. *)
Definition callback_log (t : Lifecycle.Transition) (n : Node.PendulumControllerNode)
  : list LogRecord :=
  match t with
  | Lifecycle.Configure => [ {| format := "Configuring"; args := [] |} ]
  | Lifecycle.Cleanup => [ {| format := "Cleaning up"; args := [] |} ]
  | Lifecycle.Activate => [ {| format := "Activating"; args := [] |} ]
  | Lifecycle.Deactivate =>
      {| format := "Deactivating"; args := [] |} :: render (snapshot_of n)
  | Lifecycle.Shutdown => [ {| format := "Shutting down"; args := [] |} ]
  end.

(** The node after each member function, written without the monad; the
    lemmas [callback_effect_spec] to [run_effect_spec] show that the member
    functions return exactly these nodes and never throw. *)
Definition callback_effect (t : Lifecycle.Transition)
    (n : Node.PendulumControllerNode) : Node.PendulumControllerNode :=
  Node.set_logger (Node.logger n ++ callback_log t n)
    (match t with
     | Lifecycle.Configure =>
         Node.set_controller_ (Controller.reset (Node.controller_ n)) n
     | Lifecycle.Activate =>
         Node.set_command_pub_ (Lifecycle.on_activate (Node.command_pub_ n)) n
     | Lifecycle.Deactivate =>
         Node.set_command_pub_ (Lifecycle.on_deactivate (Node.command_pub_ n)) n
     | Lifecycle.Cleanup | Lifecycle.Shutdown => n
     end).

Definition transition_effect (t : Lifecycle.Transition)
    (n : Node.PendulumControllerNode) : Node.PendulumControllerNode :=
  match Lifecycle.goal_state (Node.current_state n) t with
  | None => n
  | Some goal => Node.set_current_state goal (callback_effect t n)
  end.

Definition sample_effect (m : JointState.msg) (n : Node.PendulumControllerNode)
  : Node.PendulumControllerNode :=
  let c := Controller.update
             (Controller.set_state (JointState.cart_position m)
                (JointState.cart_velocity m) (JointState.pole_angle m)
                (JointState.pole_velocity m) (Node.controller_ n)) in
  let command := {| JointCommand.force := Controller.get_force_command c |} in
  Node.set_command_pub_ (Lifecycle.publish command (Node.command_pub_ n))
    (Node.set_command_message_ command (Node.set_controller_ c n)).

Definition body_effect (counter_bits : N) (w : Node.WaitResult)
    (n : Node.PendulumControllerNode) : Node.PendulumControllerNode :=
  match w with
  | Node.Ready true (Some m) => sample_effect m n
  | Node.Timeout =>
      match Node.current_state n with
      | Lifecycle.Active =>
          Node.set_num_missed_deadlines_
            (Node.increment counter_bits (Node.num_missed_deadlines_ n)) n
      | _ => n
      end
  | _ => n
  end.

Definition step_effect (counter_bits : N) (n : Node.PendulumControllerNode)
    (e : Node.Event) : Node.PendulumControllerNode :=
  match e with
  | Node.WaitReturned w => body_effect counter_bits w n
  | Node.TeleopReceived m =>
      Node.set_controller_
        (Controller.set_teleop (PendulumTeleop.cart_position m)
           (PendulumTeleop.cart_velocity m) (Node.controller_ n)) n
  | Node.TransitionRequested t => transition_effect t n
  end.

(** The value the parameter "deadline_us" is configured with. *)
Definition configured_deadline_us (options : NodeOptions) : Z :=
  match options !! "deadline_us" with
  | Some (PARAMETER_INTEGER N) => N
  | _ => 2000
  end.

(** The publisher's activation flag follows the lifecycle state. *)
Definition publisher_follows_state (n : Node.PendulumControllerNode) : Prop :=
  match Node.current_state n with
  | Lifecycle.Unconfigured | Lifecycle.Inactive =>
      Lifecycle.enabled_ (Node.command_pub_ n) = false
  | Lifecycle.Active => Lifecycle.enabled_ (Node.command_pub_ n) = true
  | Lifecycle.Finalized => True
  end.

(** A sensor sample with the pole 0.1 rad off. *)
Definition tilted_sample : JointState.msg :=
  {| JointState.cart_position := 0; JointState.cart_velocity := 0;
     JointState.pole_angle := 0.1; JointState.pole_velocity := 0 |}.

(** The node is one the constructor and the callbacks can produce: the
    counter fits its width. *)
Definition counter_in_range (counter_bits : N) (n : Node.PendulumControllerNode)
  : Prop :=
  0 <= Node.num_missed_deadlines_ n < 2 ^ Z.of_N counter_bits.

End NodeSpec.

Module ControllerSpec.

(** The gain of the spec's worked example, in exact arithmetic. *)
Definition spec_gain_Q : list Q := [ (-10)%Q; (-51.5393)%Q; 356.8637%Q; 154.4146%Q ].

Definition controller_Q : Controller.PendulumController Q :=
  Controller.PendulumController_new {| Controller.feedback_matrix := spec_gain_Q |}.

(** The node's controller when the gain is not overridden. *)
Definition controller_binary64 : Controller.PendulumController float :=
  Controller.PendulumController_new
    {| Controller.feedback_matrix := Node.default_feedback_matrix |}.

(** A binary64 controller with that gain, whatever state, teleop setpoint
    and command it holds. *)
Definition controller_with_default_gain (s : Controller.PlantState float)
    (t : Controller.TeleopSetpoint float) (f : float)
  : Controller.PendulumController float :=
  {| Controller.cfg_ := {| Controller.feedback_matrix := Node.default_feedback_matrix |};
     Controller.state_ := s;
     Controller.teleop_ := t;
     Controller.force_command_ := f |}.

End ControllerSpec.

Module MotorSimSpec.
#[local] Open Scope float_scope.

(** A simulator with a period of one millisecond, as its constructor
    builds it. *)
Definition motor_1ms : MotorSim.MotorSim :=
  {| MotorSim.publish_period_ := 1000000;
     MotorSim.dt_ := 0.001;
     MotorSim.properties_ := MotorSim.default_properties;
     MotorSim.state_ := MotorSim.default_state |}.

(** A stand-in for [std::sin], to run the simulator on examples: the Taylor
    polynomial of degree 3. *)
Definition sin_taylor (x : float) : float := x - x * x * x / 6.

End MotorSimSpec.

(** ** Vocabulary for runs of the node, of [main] and of the simulator *)

Module RunSpec.
Import Rclcpp.

(** The wait delivers a sample: the subscription is ready and [take]
    succeeds. *)
Definition delivers_sample (w : Node.WaitResult) : bool :=
  match w with
  | Node.Ready true (Some _) => true
  | _ => false
  end.

(** The number of samples the loop takes in a run. *)
Fixpoint taken_samples (events : list Node.Event) : nat :=
  match events with
  | [] => 0%nat
  | Node.WaitReturned w :: rest =>
      ((if delivers_sample w then 1 else 0) + taken_samples rest)%nat
  | _ :: rest => taken_samples rest
  end.

Definition is_transition_request (e : Node.Event) : bool :=
  match e with
  | Node.TransitionRequested _ => true
  | _ => false
  end.

(** The names the constructor declares. *)
Definition declared_parameters : list string :=
  [ "state_topic_name"; "command_topic_name"; "teleop_topic_name"; "deadline_us";
    "controller.feedback_matrix"; "auto_start_node"; "proc_settings.lock_memory";
    "proc_settings.process_priority"; "proc_settings.cpu_affinity";
    "proc_settings.lock_memory_size_mb"; "proc_settings.configure_child_threads" ].

(** The value of an integer or boolean parameter: the override of that type,
    or the default. *)
Definition integer_parameter (options : NodeOptions) (name : string) (d : Z) : Z :=
  match options !! name with
  | Some (PARAMETER_INTEGER z) => z
  | _ => d
  end.

Definition bool_parameter (options : NodeOptions) (name : string) (d : bool) : bool :=
  match options !! name with
  | Some (PARAMETER_BOOL b) => b
  | _ => d
  end.

End RunSpec.

Module MotorSimRuns.

(** The two operations a user of the simulator drives it with. *)
Inductive Operation :=
| Command (msg : pendulum_msgs.JointCommand)
| Step.

Section WithSin.
Variable sin : float -> float.

Definition apply (m : MotorSim.MotorSim) (op : Operation) : MotorSim.MotorSim :=
  match op with
  | Command msg => MotorSim.update_motor_command msg m
  | Step => MotorSim.update_motor_state sin m
  end.

Definition apply_all (ops : list Operation) (m : MotorSim.MotorSim)
  : MotorSim.MotorSim :=
  fold_left apply ops m.

End WithSin.

(** A position is a number of the range from 0 to PI, or a NaN. *)
Definition in_range_or_nan (x : float) : bool :=
  MotorSim.in_range x || is_nan x.

End MotorSimRuns.

(** Unfolds the member functions of the node and the monad under them. *)
Ltac node_unfold :=
  unfold Node.trigger_transition, Node.callback,
    Node.on_configure, Node.on_activate, Node.on_deactivate, Node.on_cleanup,
    Node.on_shutdown, Node.log_controller_state, Node.on_sensor_message,
    Node.on_pendulum_teleop, Node.RCLCPP_INFO, Node.at_,
    Node.modify, Node.this, Node.throw,
    mbind, mret, Node.NodeM_bind, Node.NodeM_ret; cbn.

(** Decides an order fact on [spec_float]s that have been taken apart: the
    signs by cases, exponents and mantissas by linear arithmetic. *)
Ltac sf_order :=
  repeat match goal with
         | s : bool |- _ => destruct s
         end;
  cbn [SFcompare];
  repeat match goal with
         | |- context [Z.compare ?a ?b] => destruct (Z.compare_spec a b)
         end;
  repeat match goal with
         | |- context [Pos.compare_cont Eq ?a ?b] =>
             change (Pos.compare_cont Eq a b) with (Pos.compare a b);
             destruct (Pos.compare_spec a b)
         end;
  cbn [CompOpp]; intros; subst; try discriminate; try reflexivity; try lia.

(** * Properties *)

(** ** The feedback controller *)

Section ControllerProperties.
Context {T : Type} `{Scalar T}.
Import Controller.

Lemma dot_four (g1 g2 g3 g4 e1 e2 e3 e4 : T) :
  dot [g1; g2; g3; g4] [e1; e2; e3; e4]
  = s_add (s_add (s_add (s_add s_zero (s_mul g1 e1)) (s_mul g2 e2)) (s_mul g3 e3))
      (s_mul g4 e4).
Proof. reflexivity. Qed.

Lemma update_reads_inputs (c : PendulumController T) :
  get_force_command (update c)
  = control_law (feedback_matrix (cfg_ c)) (state_ c) (teleop_ c).
Proof. reflexivity. Qed.

Lemma update_keeps_inputs (c : PendulumController T) :
  cfg_ (update c) = cfg_ c /\ state_ (update c) = state_ c
  /\ teleop_ (update c) = teleop_ c.
Proof. repeat split. Qed.

Lemma update_idempotent (c : PendulumController T) : update (update c) = update c.
Proof. reflexivity. Qed.

Lemma reset_idempotent (c : PendulumController T) : reset (reset c) = reset c.
Proof. reflexivity. Qed.

Lemma reset_keeps_gain (c : PendulumController T) : cfg_ (reset c) = cfg_ c.
Proof. reflexivity. Qed.

End ControllerProperties.

Import ControllerSpec.

(** C2, in the arithmetic the controller computes in: after [set_state(s)]
    and [set_teleop(t)], [update()] stores
    [G . [x - tp, v - tv, theta, omega]], whatever the controller held before;
    for a gain of four coefficients this is the sum of the four products,
    accumulated from zero.  In binary64, with the gain
    [-10, -51.5393, 356.8637, 154.4146], the state (0,0,0,0) with teleop (0,0)
    gives 0, and the state (0,0,0.1,0) gives the rounded product
    356.8637 * 0.1, which is the double 35.686370000000004: the next one above
    the double nearest to 35.68637. *)
Theorem update_computes_feedback_law :
  (forall (T : Type) (S : Scalar T) (c : Controller.PendulumController T)
          (x v theta omega tp tv : T),
      Controller.get_force_command
        (Controller.update
           (Controller.set_teleop tp tv (Controller.set_state x v theta omega c)))
      = Controller.dot (Controller.feedback_matrix (Controller.cfg_ c))
          [s_sub x tp; s_sub v tv; theta; omega])
  /\ (forall (T : Type) (S : Scalar T) (g1 g2 g3 g4 e1 e2 e3 e4 : T),
      Controller.dot [g1; g2; g3; g4] [e1; e2; e3; e4]
      = s_add (s_add (s_add (s_add s_zero (s_mul g1 e1)) (s_mul g2 e2)) (s_mul g3 e3))
          (s_mul g4 e4))
  /\ (forall (s : Controller.PlantState float) (t : Controller.TeleopSetpoint float)
             (f : float),
        let c := controller_with_default_gain s t f in
        (Controller.get_force_command
           (Controller.update
              (Controller.set_teleop 0 0 (Controller.set_state 0 0 0 0 c))) = 0
         /\ Controller.get_force_command
              (Controller.update
                 (Controller.set_teleop 0 0 (Controller.set_state 0 0 0.1 0 c)))
            = 356.8637 * 0.1
         /\ 356.8637 * 0.1 = 35.686370000000004
         /\ 356.8637 * 0.1 = next_up 35.68637)%float).
Proof.
  split; [| split].
  - intros T S c x v theta omega tp tv. reflexivity.
  - intros T S g1 g2 g3 g4 e1 e2 e3 e4. apply dot_four.
  - intros s t f. cbv zeta. repeat split; vm_compute; reflexivity.
Qed.

(** C2 as stated fails in binary64: for the state (0,0,0.1,0) and teleop (0,0)
    the command of the node's controller is not the double 35.68637 but the
    next one above it. *)
Lemma second_worked_example_is_not_35_68637 :
  (Controller.get_force_command
     (Controller.update
        (Controller.set_teleop 0 0 (Controller.set_state 0 0 0.1 0 controller_binary64)))
   =? 35.68637)%float = false
  /\ (35.68637
      <? Controller.get_force_command
           (Controller.update
              (Controller.set_teleop 0 0
                 (Controller.set_state 0 0 0.1 0 controller_binary64))))%float = true
  /\ (Controller.get_force_command
        (Controller.update
           (Controller.set_teleop 0 0 (Controller.set_state 0 0 0.1 0 controller_binary64)))
      <> 35.68637)%float.
Proof.
  split; [vm_compute; reflexivity |]. split; [vm_compute; reflexivity |].
  intros H.
  assert (E : (Controller.get_force_command
                 (Controller.update
                    (Controller.set_teleop 0 0
                       (Controller.set_state 0 0 0.1 0 controller_binary64)))
               =? 35.68637)%float = true) by (rewrite H; reflexivity).
  vm_compute in E. discriminate E.
Qed.

(** In exact rational arithmetic the same two examples give 0 and
    35.68637: the difference from the binary64 command is rounding alone. *)
Lemma worked_examples_exact :
  (Controller.get_force_command
     (Controller.update
        (Controller.set_teleop 0 0 (Controller.set_state 0 0 0 0 controller_Q)))
   == 0)%Q
  /\ (Controller.get_force_command
        (Controller.update
           (Controller.set_teleop 0 0 (Controller.set_state 0 0 0.1 0 controller_Q)))
      == 35.68637)%Q.
Proof. split; vm_compute; reflexivity. Qed.

(** C6: two [update()] calls in a row, with no input change in between, give
    the same command (indeed the same controller), and the command after
    [set_state(s); set_teleop(t)] is [control_law] of the gain, [s] and [t]
    alone: nothing else the controller holds enters it. *)
Theorem update_is_deterministic :
  forall (T : Type) (S : Scalar T) (c : Controller.PendulumController T)
         (x v theta omega tp tv : T),
    let c1 := Controller.update
                (Controller.set_teleop tp tv (Controller.set_state x v theta omega c)) in
    let c2 := Controller.update c1 in
    Controller.get_force_command c2 = Controller.get_force_command c1
    /\ c2 = c1
    /\ Controller.get_force_command c1
       = Controller.control_law (Controller.feedback_matrix (Controller.cfg_ c))
           {| Controller.cart_position := x; Controller.cart_velocity := v;
              Controller.pole_angle := theta; Controller.pole_velocity := omega |}
           {| Controller.cart_position_target := tp;
              Controller.cart_velocity_target := tv |}.
Proof. intros T S c x v theta omega tp tv. cbv zeta. repeat split. Qed.

(** ** The node: what each member function does to the node *)

Section NodeProperties.
Import Rclcpp Node NodeSpec.

Lemma render_snapshot (n : PendulumControllerNode) :
  render (snapshot_of n)
  = [ {| format := "Cart position = %lf";
         args := [arg_double (Controller.cart_position (Controller.state_ (controller_ n)))] |};
      {| format := "Cart velocity = %lf";
         args := [arg_double (Controller.cart_velocity (Controller.state_ (controller_ n)))] |};
      {| format := "Pole angle = %lf";
         args := [arg_double (Controller.pole_angle (Controller.state_ (controller_ n)))] |};
      {| format := "Pole angular velocity = %lf";
         args := [arg_double (Controller.pole_velocity (Controller.state_ (controller_ n)))] |};
      {| format := "Teleoperation cart position = %lf";
         args := [arg_double
                    (Controller.cart_position_target (Controller.teleop_ (controller_ n)))] |};
      {| format := "Teleoperation cart velocity = %lf";
         args := [arg_double
                    (Controller.cart_velocity_target (Controller.teleop_ (controller_ n)))] |};
      {| format := "Force command = %lf";
         args := [arg_double (Controller.get_force_command (controller_ n))] |};
      {| format := "Num missed deadlines = %u";
         args := [arg_unsigned (num_missed_deadlines_ n)] |} ].
Proof. reflexivity. Qed.

(** [log_controller_state] never throws: the two vectors it indexes have
    four and two elements. *)
Lemma log_controller_state_spec (n : PendulumControllerNode) :
  log_controller_state n
  = inr (tt, set_logger (logger n ++ render (snapshot_of n)) n).
Proof.
  rewrite render_snapshot. node_unfold.
  rewrite <- !app_assoc. reflexivity.
Qed.

Lemma on_sensor_message_spec (m : JointState.msg) (n : PendulumControllerNode) :
  on_sensor_message m n = inr (tt, sample_effect m n).
Proof. reflexivity. Qed.

(** Every callback returns SUCCESS. *)
Lemma callback_effect_spec (t : Lifecycle.Transition) (n : PendulumControllerNode) :
  callback t n = inr (Lifecycle.SUCCESS, callback_effect t n).
Proof.
  destruct t; unfold callback_effect, callback_log; try reflexivity.
  rewrite render_snapshot. node_unfold.
  rewrite <- !app_assoc. reflexivity.
Qed.

Lemma trigger_transition_spec (t : Lifecycle.Transition) (n : PendulumControllerNode) :
  trigger_transition t n = inr (tt, transition_effect t n).
Proof.
  unfold trigger_transition, transition_effect, mbind, NodeM_bind, this.
  destruct (Lifecycle.goal_state (current_state n) t) as [goal|]; [| reflexivity].
  rewrite callback_effect_spec. reflexivity.
Qed.

Lemma realtime_loop_body_spec (counter_bits : N) (w : WaitResult)
    (n : PendulumControllerNode) :
  realtime_loop_body counter_bits w n = inr (tt, body_effect counter_bits w n).
Proof.
  destruct w as [[|] [m|] | |]; try reflexivity.
  cbn [realtime_loop_body body_effect]. unfold mbind, NodeM_bind, this.
  destruct (current_state n); reflexivity.
Qed.

Lemma step_effect_spec (counter_bits : N) (e : Event) (n : PendulumControllerNode) :
  step counter_bits e n = inr (tt, step_effect counter_bits n e).
Proof.
  destruct e as [w | m | t]; cbn [step step_effect].
  - apply realtime_loop_body_spec.
  - reflexivity.
  - apply trigger_transition_spec.
Qed.

(** A run never throws. *)
Lemma run_effect_spec (counter_bits : N) (events : list Event)
    (n : PendulumControllerNode) :
  run counter_bits events n = inr (tt, fold_left (step_effect counter_bits) events n).
Proof.
  revert n. induction events as [| e rest IH]; intros n; [reflexivity |].
  cbn [run fold_left]. unfold mbind, NodeM_bind.
  rewrite step_effect_spec. apply IH.
Qed.

(** [realtime_loop] is the run of its wait results. *)
Lemma realtime_loop_run (counter_bits : N) (wait_results : list WaitResult) :
  realtime_loop counter_bits wait_results
  = run counter_bits (map WaitReturned wait_results).
Proof.
  induction wait_results as [| w rest IH]; [reflexivity |].
  cbn [realtime_loop run map step]. rewrite IH. reflexivity.
Qed.

(** *** Lifecycle state and counter along a run *)

Lemma step_effect_state (counter_bits : N) (e : Event) (n : PendulumControllerNode) :
  current_state (step_effect counter_bits n e) = state_after (current_state n) e.
Proof.
  destruct e as [[[|] [m|] | |] | m | t]; try reflexivity.
  - cbn [step_effect body_effect state_after].
    destruct (current_state n) eqn:Hs; cbn; exact Hs.
  - cbn [step_effect state_after]. unfold transition_effect.
    destruct (Lifecycle.goal_state (current_state n) t); reflexivity.
Qed.

Lemma step_effect_counter (counter_bits : N) (e : Event) (n : PendulumControllerNode) :
  num_missed_deadlines_ (step_effect counter_bits n e)
  = match e, current_state n with
    | WaitReturned Timeout, Lifecycle.Active =>
        increment counter_bits (num_missed_deadlines_ n)
    | _, _ => num_missed_deadlines_ n
    end.
Proof.
  destruct e as [[[|] [m|] | |] | m | t]; try (destruct (current_state n); reflexivity).
  - cbn [step_effect body_effect]. destruct (current_state n); reflexivity.
  - cbn [step_effect]. unfold transition_effect.
    destruct (current_state n), t; reflexivity.
Qed.

Lemma step_effect_frame (counter_bits : N) (e : Event) (n : PendulumControllerNode) :
  deadline_duration_ (step_effect counter_bits n e) = deadline_duration_ n
  /\ proc_settings_ (step_effect counter_bits n e) = proc_settings_ n.
Proof.
  destruct e as [[[|] [m|] | |] | m | t]; try (split; reflexivity).
  - cbn [step_effect body_effect]. destruct (current_state n); split; reflexivity.
  - cbn [step_effect]. unfold transition_effect.
    destruct (Lifecycle.goal_state (current_state n) t); destruct t; split; reflexivity.
Qed.

Lemma run_effect_frame (counter_bits : N) (events : list Event)
    (n : PendulumControllerNode) :
  deadline_duration_ (fold_left (step_effect counter_bits) events n)
  = deadline_duration_ n
  /\ proc_settings_ (fold_left (step_effect counter_bits) events n) = proc_settings_ n.
Proof.
  revert n. induction events as [| e rest IH]; intros n; [split; reflexivity |].
  cbn [fold_left]. destruct (IH (step_effect counter_bits n e)) as [Hd Hp].
  destruct (step_effect_frame counter_bits e n) as [Hd' Hp'].
  split; congruence.
Qed.

Lemma increment_range (counter_bits : N) (k : Z) :
  0 <= increment counter_bits k < 2 ^ Z.of_N counter_bits.
Proof. unfold increment. apply Z.mod_pos_bound. apply Z.pow_pos_nonneg; lia. Qed.

Lemma timeouts_while_active_nonneg (events : list Event) (s : Lifecycle.State) :
  0 <= timeouts_while_active s events.
Proof.
  revert s. induction events as [| e rest IH]; intros s; cbn [timeouts_while_active].
  - lia.
  - specialize (IH (state_after s e)).
    destruct e as [[| |] | |], s; lia.
Qed.

(** The counter after a run is the initial one plus the timeouts seen while
    active, reduced modulo the counter's range. *)
Lemma run_effect_counter (counter_bits : N) (events : list Event)
    (n : PendulumControllerNode) :
  counter_in_range counter_bits n ->
  let n' := fold_left (step_effect counter_bits) events n in
  current_state n' = fold_left state_after events (current_state n)
  /\ num_missed_deadlines_ n'
     = (num_missed_deadlines_ n + timeouts_while_active (current_state n) events)
         mod 2 ^ Z.of_N counter_bits.
Proof.
  cbv zeta. revert n. induction events as [| e rest IH]; intros n Hn.
  - split; [reflexivity |].
    cbn [timeouts_while_active fold_left]. rewrite Z.add_0_r.
    symmetry. apply Z.mod_small. exact Hn.
  - pose proof (step_effect_state counter_bits e n) as Hs.
    pose proof (step_effect_counter counter_bits e n) as Hc.
    assert (Hn1 : counter_in_range counter_bits (step_effect counter_bits n e)).
    { unfold counter_in_range. rewrite Hc.
      destruct e as [[| |] | |], (current_state n);
        first [apply increment_range | exact Hn]. }
    destruct (IH _ Hn1) as [Hst Hcnt].
    cbn [fold_left]. split.
    + rewrite Hst, Hs. reflexivity.
    + rewrite Hcnt, Hs, Hc. cbn [timeouts_while_active].
      set (M := 2 ^ Z.of_N counter_bits).
      set (k := timeouts_while_active (state_after (current_state n) e) rest).
      destruct e as [[| |] | |], (current_state n);
        rewrite ?Z.add_0_l; try reflexivity.
      unfold increment. fold M.
      rewrite Z.add_mod_idemp_l by (apply Z.pow_nonzero; lia).
      f_equal. lia.
Qed.

Lemma state_after_timeouts (k : nat) (s : Lifecycle.State) :
  fold_left state_after (repeat (WaitReturned Timeout) k) s = s.
Proof. induction k as [| k IH]; [reflexivity | exact IH]. Qed.

Lemma timeouts_while_active_repeat (k : nat) :
  timeouts_while_active Lifecycle.Active (repeat (WaitReturned Timeout) k)
  = Z.of_nat k.
Proof.
  induction k as [| k IH]; [reflexivity |].
  cbn [repeat timeouts_while_active state_after]. rewrite IH. lia.
Qed.

(** *** The publisher's activation flag *)

(** While the publisher is not activated, a sensor sample still feeds the
    controller but nothing reaches the command channel. *)
Lemma sample_not_published_while_disabled (m : JointState.msg)
    (n : PendulumControllerNode) :
  Lifecycle.enabled_ (command_pub_ n) = false ->
  controller_ (sample_effect m n)
  = Controller.update
      (Controller.set_state (JointState.cart_position m)
         (JointState.cart_velocity m) (JointState.pole_angle m)
         (JointState.pole_velocity m) (controller_ n))
  /\ command_pub_ (sample_effect m n) = command_pub_ n.
Proof.
  intros Hoff. split; [reflexivity |].
  cbn. unfold Lifecycle.publish. rewrite Hoff. reflexivity.
Qed.

Lemma publish_keeps_flag (c : JointCommand.msg) (p : Lifecycle.LifecyclePublisher) :
  Lifecycle.enabled_ (Lifecycle.publish c p) = Lifecycle.enabled_ p.
Proof. unfold Lifecycle.publish. destruct (Lifecycle.enabled_ p) eqn:E; [reflexivity | exact E]. Qed.

(** The activation flag follows the lifecycle state through every event, up
    to Finalized, on the way to which nothing clears it. *)
Lemma step_publisher_follows_state (counter_bits : N) (e : Event)
    (n : PendulumControllerNode) :
  publisher_follows_state n ->
  publisher_follows_state (step_effect counter_bits n e).
Proof.
  unfold publisher_follows_state.
  destruct e as [[[|] [m|] | |] | m | t]; cbn [step_effect body_effect];
    try (intros Hinv; exact Hinv).
  - intros Hinv. unfold sample_effect. cbn. rewrite publish_keeps_flag. exact Hinv.
  - destruct (current_state n) eqn:Hs; cbn; rewrite ?Hs; intros Hinv; exact Hinv.
  - unfold transition_effect.
    destruct (current_state n) eqn:Hs, t; cbn; rewrite ?Hs; intros Hinv;
      first [exact Hinv | reflexivity | exact I].
Qed.

Lemma run_publisher_follows_state (counter_bits : N) (events : list Event)
    (n : PendulumControllerNode) :
  publisher_follows_state n ->
  publisher_follows_state (fold_left (step_effect counter_bits) events n).
Proof.
  revert n. induction events as [| e rest IH]; intros n Hinv; [exact Hinv |].
  cbn [fold_left]. apply IH. apply step_publisher_follows_state. exact Hinv.
Qed.

(** In the unconfigured and inactive states of any run from the constructor,
    a processed sample is not published. *)
Lemma no_publication_before_activation (counter_bits : N) (events : list Event)
    (m : JointState.msg) (n : PendulumControllerNode) :
  run counter_bits events initial_node = inr (tt, n) ->
  current_state n = Lifecycle.Unconfigured \/ current_state n = Lifecycle.Inactive ->
  exists n', realtime_loop_body counter_bits (Ready true (Some m)) n = inr (tt, n')
    /\ Lifecycle.published (command_pub_ n') = Lifecycle.published (command_pub_ n).
Proof.
  rewrite run_effect_spec. intros Hrun Hs.
  assert (Hinv : publisher_follows_state n).
  { injection Hrun as <-. apply run_publisher_follows_state. reflexivity. }
  assert (Hoff : Lifecycle.enabled_ (command_pub_ n) = false).
  { unfold publisher_follows_state in Hinv. destruct Hs as [Hs | Hs];
      rewrite Hs in Hinv; exact Hinv. }
  exists (sample_effect m n). split; [reflexivity |].
  destruct (sample_not_published_while_disabled m n Hoff) as [_ Hp].
  rewrite Hp. reflexivity.
Qed.

End NodeProperties.

(** ** The node: deadline accounting, output gating, diagnostics *)

Section NodeClaims.
Import Rclcpp Node NodeSpec.

Lemma initial_node_constructed :
  PendulumControllerNode_new ∅ = inr initial_node.
Proof. vm_compute. reflexivity. Qed.

(** C1, as the code has it: whatever the events (loop iterations, teleop
    messages, lifecycle transitions) and whatever the width of the unsigned
    counter, no event throws; a wait timeout takes the counter to its
    successor modulo [2 ^ counter_bits] when the node is active and leaves it
    alone in every other state, and no other event changes it; so after a run
    the counter is the initial one plus the number of timeouts seen while
    active, modulo [2 ^ counter_bits].  As long as that sum stays below
    [2 ^ counter_bits], every active timeout has added exactly 1 and the
    counter has not decreased. *)
Theorem missed_deadlines_accounting :
  forall (counter_bits : N) (events : list Event) (n : PendulumControllerNode),
    counter_in_range counter_bits n ->
    (forall e : Event,
        exists n1, step counter_bits e n = inr (tt, n1)
          /\ num_missed_deadlines_ n1
             = match e, current_state n with
               | WaitReturned Timeout, Lifecycle.Active =>
                   (num_missed_deadlines_ n + 1) mod 2 ^ Z.of_N counter_bits
               | _, _ => num_missed_deadlines_ n
               end)
    /\ exists n', run counter_bits events n = inr (tt, n')
         /\ num_missed_deadlines_ n'
            = (num_missed_deadlines_ n + timeouts_while_active (current_state n) events)
                mod 2 ^ Z.of_N counter_bits
         /\ (num_missed_deadlines_ n + timeouts_while_active (current_state n) events
               < 2 ^ Z.of_N counter_bits ->
             num_missed_deadlines_ n'
             = num_missed_deadlines_ n + timeouts_while_active (current_state n) events
             /\ num_missed_deadlines_ n <= num_missed_deadlines_ n').
Proof.
  intros counter_bits events n Hn. split.
  - intros e. exists (step_effect counter_bits n e).
    split; [apply step_effect_spec | apply step_effect_counter].
  - exists (fold_left (step_effect counter_bits) events n).
    destruct (run_effect_counter counter_bits events n Hn) as [_ Hc].
    split; [apply run_effect_spec | split; [exact Hc |]].
    intros Hsmall.
    pose proof (timeouts_while_active_nonneg events (current_state n)) as Hk.
    unfold counter_in_range in Hn.
    rewrite Hc, Z.mod_small by lia. lia.
Qed.

Lemma missed_deadlines_accounting_witness :
  counter_in_range 32 initial_node
  /\ exists n',
       run 32 [ TransitionRequested Lifecycle.Configure; WaitReturned Timeout;
                TransitionRequested Lifecycle.Activate; WaitReturned Timeout;
                WaitReturned Timeout; TransitionRequested Lifecycle.Deactivate;
                WaitReturned Timeout ] initial_node = inr (tt, n')
       /\ num_missed_deadlines_ n' = 2.
Proof.
  assert (H0 : counter_in_range 32 initial_node) by (split; [cbn; lia | reflexivity]).
  split; [exact H0 |].
  destruct (missed_deadlines_accounting 32
              [ TransitionRequested Lifecycle.Configure; WaitReturned Timeout;
                TransitionRequested Lifecycle.Activate; WaitReturned Timeout;
                WaitReturned Timeout; TransitionRequested Lifecycle.Deactivate;
                WaitReturned Timeout ] initial_node H0)
    as [_ (n' & Hrun & Hc & _)].
  exists n'. split; [exact Hrun | rewrite Hc; reflexivity].
Defined.

(** C1 as stated fails: a 32-bit counter that has counted
    2^32 - 1 timeouts in the active state is at its maximum, and the next
    active timeout takes it to 0. *)
Lemma missed_deadline_counter_wraps :
  exists n0 n1 n2 : PendulumControllerNode,
    PendulumControllerNode_new ∅ = inr n0
    /\ run 32 ([ TransitionRequested Lifecycle.Configure;
                 TransitionRequested Lifecycle.Activate ]
               ++ repeat (WaitReturned Timeout) (Z.to_nat 4294967295)) n0
       = inr (tt, n1)
    /\ current_state n1 = Lifecycle.Active
    /\ num_missed_deadlines_ n1 = 4294967295
    /\ realtime_loop_body 32 Timeout n1 = inr (tt, n2)
    /\ num_missed_deadlines_ n2 = 0.
Proof.
  assert (Hk : exists k : nat, k = Z.to_nat 4294967295 /\ Z.of_nat k = 4294967295).
  { eexists. split; [reflexivity |]. apply Z2Nat.id. lia. }
  destruct Hk as (k & <- & Hk).
  set (events := [ TransitionRequested Lifecycle.Configure;
                   TransitionRequested Lifecycle.Activate ]
                 ++ repeat (WaitReturned Timeout) k).
  assert (Hrange : counter_in_range 32 initial_node) by (split; [cbn; lia | reflexivity]).
  destruct (run_effect_counter 32 events initial_node Hrange) as [Hst Hc].
  set (n1 := fold_left (step_effect 32) events initial_node) in *.
  assert (Hst1 : current_state n1 = Lifecycle.Active).
  { rewrite Hst. unfold events. rewrite fold_left_app. apply state_after_timeouts. }
  assert (Hc1 : num_missed_deadlines_ n1 = 4294967295).
  { rewrite Hc. unfold events. cbn [app timeouts_while_active state_after].
    cbn [initial_node current_state num_missed_deadlines_ Lifecycle.goal_state default].
    rewrite timeouts_while_active_repeat, Hk. reflexivity. }
  exists initial_node, n1, (body_effect 32 Timeout n1).
  split; [exact initial_node_constructed |].
  split; [apply run_effect_spec |].
  split; [exact Hst1 |].
  split; [exact Hc1 |].
  split; [apply realtime_loop_body_spec |].
  cbn [body_effect]. rewrite Hst1. cbn [num_missed_deadlines_ set_num_missed_deadlines_].
  rewrite Hc1. reflexivity.
Qed.

(** C3, at the input where the code departs from it: configure, activate and
    shut down a freshly built node.  [on_shutdown] only logs, so the node is
    Finalized with its publisher still activated, and the next sensor sample
    is published. *)
Lemma finalized_node_still_publishes :
  exists n1 n2 : PendulumControllerNode,
    run 32 [ TransitionRequested Lifecycle.Configure;
             TransitionRequested Lifecycle.Activate;
             TransitionRequested Lifecycle.Shutdown ] initial_node = inr (tt, n1)
    /\ current_state n1 = Lifecycle.Finalized
    /\ Lifecycle.enabled_ (command_pub_ n1) = true
    /\ Lifecycle.published (command_pub_ n1) = []
    /\ realtime_loop_body 32 (Ready true (Some tilted_sample)) n1 = inr (tt, n2)
    /\ current_state n2 = Lifecycle.Finalized
    /\ Lifecycle.published (command_pub_ n2)
       = [ {| JointCommand.force := (356.8637 * 0.1)%float |} ].
Proof.
  eexists. eexists.
  split; [apply run_effect_spec |].
  split; [reflexivity |].
  split; [reflexivity |].
  split; [reflexivity |].
  split; [apply realtime_loop_body_spec |].
  split; [reflexivity |].
  vm_compute. reflexivity.
Qed.

(** C5: a deactivate request in the active state succeeds; the node becomes
    Inactive with its publisher deactivated, and the log grows by the line
    "Deactivating" followed by one snapshot: the four state components, the
    two teleop components, the last force command and the missed-deadline
    count, each in a record of its own and in this order.  Controller,
    counter and published commands are untouched. *)
Theorem deactivate_disables_output_and_logs_snapshot :
  forall n : PendulumControllerNode,
    current_state n = Lifecycle.Active ->
    exists n', trigger_transition Lifecycle.Deactivate n = inr (tt, n')
      /\ current_state n' = Lifecycle.Inactive
      /\ Lifecycle.enabled_ (command_pub_ n') = false
      /\ Lifecycle.published (command_pub_ n') = Lifecycle.published (command_pub_ n)
      /\ logger n'
         = logger n ++ {| format := "Deactivating"; args := [] |}
                         :: render (snapshot_of n)
      /\ render (snapshot_of n)
         = [ {| format := "Cart position = %lf";
                args := [arg_double (Controller.cart_position
                                       (Controller.state_ (controller_ n)))] |};
             {| format := "Cart velocity = %lf";
                args := [arg_double (Controller.cart_velocity
                                       (Controller.state_ (controller_ n)))] |};
             {| format := "Pole angle = %lf";
                args := [arg_double (Controller.pole_angle
                                       (Controller.state_ (controller_ n)))] |};
             {| format := "Pole angular velocity = %lf";
                args := [arg_double (Controller.pole_velocity
                                       (Controller.state_ (controller_ n)))] |};
             {| format := "Teleoperation cart position = %lf";
                args := [arg_double (Controller.cart_position_target
                                       (Controller.teleop_ (controller_ n)))] |};
             {| format := "Teleoperation cart velocity = %lf";
                args := [arg_double (Controller.cart_velocity_target
                                       (Controller.teleop_ (controller_ n)))] |};
             {| format := "Force command = %lf";
                args := [arg_double (Controller.get_force_command (controller_ n))] |};
             {| format := "Num missed deadlines = %u";
                args := [arg_unsigned (num_missed_deadlines_ n)] |} ]
      /\ logged_values (render (snapshot_of n)) = snapshot_values (snapshot_of n)
      /\ controller_ n' = controller_ n
      /\ num_missed_deadlines_ n' = num_missed_deadlines_ n.
Proof.
  intros n Hactive.
  exists (transition_effect Lifecycle.Deactivate n).
  split; [apply trigger_transition_spec |].
  unfold transition_effect. rewrite Hactive. repeat split.
Qed.

Lemma deactivate_witness :
  let n := set_current_state Lifecycle.Active
             (set_command_pub_ (Lifecycle.on_activate (command_pub_ initial_node))
                initial_node) in
  exists n', trigger_transition Lifecycle.Deactivate n = inr (tt, n')
    /\ current_state n' = Lifecycle.Inactive
    /\ Lifecycle.enabled_ (command_pub_ n') = false
    /\ length (logger n') = 9%nat.
Proof.
  intros n.
  assert (Hn : current_state n = Lifecycle.Active) by reflexivity.
  destruct (deactivate_disables_output_and_logs_snapshot n Hn)
    as (n' & Hr & Hs & Hoff & _ & Hlog & _).
  exists n'. split; [exact Hr |]. split; [exact Hs |].
  split; [exact Hoff |]. rewrite Hlog. reflexivity.
Defined.

(** C9: whatever the overrides the node is built with, the timeout of the
    loop's wait is the value of the parameter named "deadline_us" (2000 when
    it is not overridden) taken as a count of milliseconds: a thousand times
    that many microseconds, and so a different duration unless the value
    is 0.  No event of a run changes it. *)
Theorem deadline_us_is_taken_as_milliseconds :
  forall (options : NodeOptions) (n : PendulumControllerNode),
    PendulumControllerNode_new options = inr n ->
    wait_timeout n = milliseconds (configured_deadline_us options)
    /\ wait_timeout n = 1000 * microseconds (configured_deadline_us options)
    /\ (configured_deadline_us options <> 0 ->
        wait_timeout n <> microseconds (configured_deadline_us options))
    /\ (forall N : Z, options !! "deadline_us" = Some (PARAMETER_INTEGER N) ->
        wait_timeout n = milliseconds N)
    /\ (options !! "deadline_us" = None -> wait_timeout n = milliseconds 2000)
    /\ (forall (counter_bits : N) (events : list Event),
        exists n', run counter_bits events n = inr (tt, n')
          /\ wait_timeout n' = wait_timeout n).
Proof.
  intros options n Hnew.
  assert (Hd : deadline_duration_ n = milliseconds (configured_deadline_us options)).
  { revert Hnew.
    unfold PendulumControllerNode_new, mbind, Result_bind, mret, Result_ret.
    repeat match goal with
           | |- context [match ?x with inl _ => _ | inr _ => _ end] =>
               destruct x eqn:?; try discriminate
           end.
    intros [= <-]. cbn [deadline_duration_]. f_equal.
    match goal with
    | H : declare_parameter as_integer options "deadline_us" _ = inr ?z |- _ =>
        revert H
    end.
    unfold declare_parameter, configured_deadline_us.
    destruct (options !! "deadline_us") as [[] |]; cbn;
      congruence. }
  unfold wait_timeout. rewrite Hd.
  split; [reflexivity |].
  split; [unfold milliseconds, microseconds; lia |].
  split; [unfold milliseconds, microseconds; lia |].
  split; [| split].
  - intros N HN. unfold configured_deadline_us. rewrite HN. reflexivity.
  - intros HN. unfold configured_deadline_us. rewrite HN. reflexivity.
  - intros counter_bits events.
    exists (fold_left (step_effect counter_bits) events n).
    split; [apply run_effect_spec |].
    destruct (run_effect_frame counter_bits events n) as [Hf _].
    rewrite Hf. exact Hd.
Qed.

Lemma deadline_us_witness :
  exists n, PendulumControllerNode_new {[ "deadline_us" := PARAMETER_INTEGER 5 ]} = inr n
    /\ wait_timeout n = 5000000.
Proof.
  destruct (PendulumControllerNode_new {[ "deadline_us" := PARAMETER_INTEGER 5 ]})
    as [e | n] eqn:H5.
  - exfalso. vm_compute in H5. discriminate H5.
  - exists n. split; [reflexivity |].
    destruct (deadline_us_is_taken_as_milliseconds _ _ H5) as (_ & _ & _ & HN & _).
    rewrite (HN 5) by (vm_compute; reflexivity). reflexivity.
Defined.

End NodeClaims.

(** C4: [reset()] leaves the state, the teleop setpoint and the stored
    command at zero and the gain as it was; a second [reset()] changes
    nothing; and [update()] after [reset()] and a [set_state], with no
    [set_teleop] in between, gives the command of the law at teleop (0,0),
    the same as after an explicit [set_teleop(0,0)].  The node's
    [on_configure] is this [reset()] on its controller. *)
Theorem reset_clears_to_zero_baseline :
  (forall (T : Type) (S : Scalar T) (c : Controller.PendulumController T),
      Controller.get_teleop (Controller.reset c) = [s_zero; s_zero]
      /\ Controller.get_state (Controller.reset c) = [s_zero; s_zero; s_zero; s_zero]
      /\ Controller.get_force_command (Controller.reset c) = s_zero
      /\ Controller.cfg_ (Controller.reset c) = Controller.cfg_ c
      /\ Controller.reset (Controller.reset c) = Controller.reset c
      /\ forall x v theta omega : T,
           Controller.get_force_command
             (Controller.update (Controller.set_state x v theta omega (Controller.reset c)))
           = Controller.control_law (Controller.feedback_matrix (Controller.cfg_ c))
               {| Controller.cart_position := x; Controller.cart_velocity := v;
                  Controller.pole_angle := theta; Controller.pole_velocity := omega |}
               {| Controller.cart_position_target := s_zero;
                  Controller.cart_velocity_target := s_zero |}
           /\ Controller.get_force_command
                (Controller.update
                   (Controller.set_state x v theta omega (Controller.reset c)))
              = Controller.get_force_command
                  (Controller.update
                     (Controller.set_teleop s_zero s_zero
                        (Controller.set_state x v theta omega c))))
  /\ (forall n : Node.PendulumControllerNode,
        exists n', Node.on_configure n = inr (Lifecycle.SUCCESS, n')
          /\ Node.controller_ n' = Controller.reset (Node.controller_ n)).
Proof.
  split.
  - intros T S c. repeat split.
  - intros n. eexists. split; reflexivity.
Qed.

(** ** The executable: process configuration *)

Section MainClaims.
Import Utils Main.

Lemma configure_process_priority_zero :
  configure_process_priority 0 0 = [].
Proof. reflexivity. Qed.

(** C8: with priority 0, affinity 0 and lock_memory false, the configuration
    calls of [main] reach the OS layer with nothing; each of priority and
    affinity is passed to the OS exactly when it is not 0;
    [lock_process_memory] is among the calls of [main] exactly when
    lock_memory is true; and a node built without overrides has these zero
    settings, so that [main] makes no OS call. *)
Theorem zero_settings_make_no_os_calls :
  (forall ps : ProcessSettings,
      process_priority ps = 0 -> cpu_affinity ps = 0 -> lock_memory ps = false ->
      concat (map os_calls (configuration_calls ps)) = [])
  /\ (forall priority affinity : Z,
        (set_scheduling_priority priority ∈ configure_process_priority priority affinity
         <-> priority <> 0)
        /\ (set_cpu_affinity affinity ∈ configure_process_priority priority affinity
            <-> affinity <> 0))
  /\ (forall ps : ProcessSettings,
        (exists megabytes, call_lock_process_memory megabytes ∈ configuration_calls ps)
        <-> lock_memory ps = true)
  /\ main ∅ = inr [].
Proof.
  split; [| split; [| split]].
  - intros ps Hp Ha Hl. unfold configuration_calls, rt_thread, main_thread.
    rewrite Hp, Ha, Hl. reflexivity.
  - intros priority affinity. unfold configure_process_priority.
    destruct (Z.eqb_spec priority 0) as [-> | Hp], (Z.eqb_spec affinity 0) as [-> | Ha];
      cbn; split; split; intros H;
      repeat match goal with
             | H : _ ∈ [] |- _ => inversion H
             | H : _ ∈ _ :: _ |- _ => inversion H; clear H; subst
             end;
      try congruence; try lia; try (repeat constructor).
  - intros ps. unfold configuration_calls, rt_thread, main_thread.
    destruct (lock_memory ps); cbn; split.
    + reflexivity.
    + intros _. eexists. apply list_elem_of_further, list_elem_of_here.
    + intros [mb H].
      repeat match goal with
             | H : _ ∈ [] |- _ => inversion H
             | H : _ ∈ _ :: _ |- _ => inversion H; clear H; subst
             end.
    + discriminate.
  - vm_compute. reflexivity.
Qed.

Lemma zero_settings_witness :
  concat (map os_calls
            (configuration_calls
               {| lock_memory := false; process_priority := 0; cpu_affinity := 0;
                  lock_memory_size_mb := 64; configure_child_threads := true |})) = [].
Proof.
  apply (proj1 zero_settings_make_no_os_calls); reflexivity.
Defined.

End MainClaims.

(** ** Binary64 comparisons *)

Section Binary64.

Lemma SFcompare_antisym (x y : spec_float) :
  SFcompare y x = option_map CompOpp (SFcompare x y).
Proof.
  destruct x as [s1 | s1 | | s1 m1 e1], y as [s2 | s2 | | s2 m2 e2];
    cbn [SFcompare option_map];
    try (destruct s1; reflexivity); try (destruct s2; reflexivity);
    try (destruct s1, s2; reflexivity); try reflexivity.
  destruct s1, s2; cbn [CompOpp]; try reflexivity;
    rewrite (Z.compare_antisym e1 e2);
    destruct (e1 ?= e2); cbn [CompOpp]; try reflexivity;
    rewrite (ZC4 m2 m1);
    destruct (Pos.compare_cont Eq m1 m2); reflexivity.
Qed.

Lemma is_nan_false (x : float) :
  is_nan x = false -> Prim2SF x <> S754_nan.
Proof.
  unfold is_nan. rewrite FloatAxioms.eqb_spec. intros H E. rewrite E in H. discriminate H.
Qed.

Lemma is_nan_true (x : float) :
  Prim2SF x = S754_nan -> is_nan x = true.
Proof. unfold is_nan. rewrite FloatAxioms.eqb_spec. intros ->. reflexivity. Qed.

(** On numbers, "not above" is "at most". *)
Lemma not_ltb_leb (x y : float) :
  is_nan x = false -> is_nan y = false ->
  (y <? x)%float = false -> (x <=? y)%float = true.
Proof.
  intros Hx Hy. apply is_nan_false in Hx. apply is_nan_false in Hy.
  rewrite FloatAxioms.ltb_spec, FloatAxioms.leb_spec. unfold SFltb, SFleb.
  rewrite (SFcompare_antisym (Prim2SF y) (Prim2SF x)).
  destruct (SFcompare (Prim2SF y) (Prim2SF x)) as [[| |] |] eqn:E;
    cbn; try congruence.
  destruct (Prim2SF x), (Prim2SF y); cbn in E; congruence.
Qed.

End Binary64.

(** ** The plant simulator *)

Section MotorSimClaims.
Import MotorSim.
#[local] Open Scope float_scope.

Lemma spec_clamp_cases (x : float) :
  spec_clamp 0 PI x = PI \/ spec_clamp 0 PI x = 0 \/
  (spec_clamp 0 PI x = x /\ (PI <? x) = false /\ (x <? 0) = false).
Proof.
  unfold spec_clamp.
  destruct (PI <? x) eqn:Hhi; [left; reflexivity |].
  destruct (x <? 0) eqn:Hlo; [right; left; reflexivity |].
  right; right. repeat split.
Qed.

(** The clamp takes every number into [0, PI], and a NaN to itself. *)
Lemma spec_clamp_in_range (x : float) :
  is_nan x = false -> in_range (spec_clamp 0 PI x) = true.
Proof.
  intros Hx.
  destruct (spec_clamp_cases x) as [-> | [-> | (-> & Hhi & Hlo)]];
    [reflexivity | reflexivity |].
  unfold in_range. apply andb_true_intro. split.
  - apply not_ltb_leb; [reflexivity | exact Hx | exact Hlo].
  - apply not_ltb_leb; [exact Hx | reflexivity | exact Hhi].
Qed.

Lemma spec_clamp_nan (x : float) :
  is_nan x = true -> spec_clamp 0 PI x = x.
Proof.
  intros Hx. unfold is_nan in Hx. rewrite FloatAxioms.eqb_spec in Hx.
  unfold spec_clamp. rewrite !FloatAxioms.ltb_spec.
  destruct (Prim2SF x); try discriminate Hx.
  - destruct s; discriminate Hx.
  - reflexivity.
  - cbn in Hx. unfold SFeqb in Hx. cbn in Hx.
    destruct s; rewrite Z.compare_refl, Pos.compare_cont_refl in Hx; discriminate Hx.
Qed.

Lemma update_motor_command_spec (msg : pendulum_msgs.JointCommand) (m : MotorSim) :
  update_motor_command msg m
  = set_position (spec_clamp 0 PI (pendulum_msgs.position msg)) m.
Proof.
  unfold update_motor_command, spec_clamp. cbn [set_position state_ position].
  destruct (PI <? pendulum_msgs.position msg); [reflexivity |].
  destruct (pendulum_msgs.position msg <? 0); [reflexivity |].
  reflexivity.
Qed.

Lemma update_motor_state_spec (sin : float -> float) (m : MotorSim) :
  update_motor_state sin m
  = {| publish_period_ := publish_period_ m; dt_ := dt_ m;
       properties_ := properties_ m;
       state_ := spec_clamp_position
                   (spec_euler_step (dt_ m)
                      (spec_acceleration sin (properties_ m) (state_ m)) (state_ m)) |}.
Proof.
  unfold update_motor_state, spec_clamp_position, spec_clamp, spec_euler_step,
    spec_acceleration.
  cbn [set_position set_velocity set_acceleration state_ position velocity
         acceleration torque dt_ properties_ publish_period_].
  match goal with
  | |- context [PI <? ?p] => destruct (PI <? p); [reflexivity |];
                             destruct (p <? 0); reflexivity
  end.
Qed.

(** C7: one [update_motor_state()] is: the acceleration from gravity and
    torque, computed from the position before the step; the Euler step
    [velocity += acceleration * dt] then [position += velocity * dt], the
    position using the velocity just updated; and the clamp of that position
    to the range from 0 to PI.  Period, time step, properties and torque are
    left as they were. *)
Theorem update_motor_state_is_clamped_euler_step :
  forall (sin : float -> float) (m : MotorSim),
    let a := GRAVITY * sin (position (state_ m) - PI / 2.0) / length (properties_ m)
             + torque (state_ m)
               / (mass (properties_ m) * length (properties_ m) * length (properties_ m)) in
    let v := velocity (state_ m) + a * dt_ m in
    let p := position (state_ m) + v * dt_ m in
    let m' := update_motor_state sin m in
    state_ m'
    = spec_clamp_position
        (spec_euler_step (dt_ m) (spec_acceleration sin (properties_ m) (state_ m))
           (state_ m))
    /\ acceleration (state_ m') = a
    /\ velocity (state_ m') = v
    /\ position (state_ m') = (if PI <? p then PI else if p <? 0 then 0 else p)
    /\ torque (state_ m') = torque (state_ m)
    /\ dt_ m' = dt_ m /\ properties_ m' = properties_ m
    /\ publish_period_ m' = publish_period_ m.
Proof.
  intros sin m. cbv zeta. rewrite update_motor_state_spec. repeat split.
Qed.

(** C10, as the code has it: [update_motor_command] sets the position to the
    clamp of the commanded value and touches nothing else (no force is
    integrated), [update_motor_state] sets it to the clamp of the integrated
    position, and a freshly built simulator is at position 0; the clamp takes
    every number, infinities included, into the range from 0 to PI, so the
    position is in range after each operation whose value before the clamp is
    not a NaN. *)
Theorem position_in_range_unless_nan :
  forall (sin : float -> float) (m : MotorSim) (msg : pendulum_msgs.JointCommand),
    let integrated :=
      position (spec_euler_step (dt_ m)
                  (spec_acceleration sin (properties_ m) (state_ m)) (state_ m)) in
    update_motor_command msg m
    = set_position (spec_clamp 0 PI (pendulum_msgs.position msg)) m
    /\ position (state_ (update_motor_state sin m)) = spec_clamp 0 PI integrated
    /\ (is_nan (pendulum_msgs.position msg) = false ->
        in_range (position (state_ (update_motor_command msg m))) = true)
    /\ (is_nan integrated = false ->
        in_range (position (state_ (update_motor_state sin m))) = true)
    /\ (forall (period : Z) (m0 : MotorSim),
          MotorSim_new period = inr m0 ->
          position (state_ m0) = 0 /\ in_range (position (state_ m0)) = true).
Proof.
  intros sin m msg. cbv zeta.
  rewrite update_motor_command_spec, update_motor_state_spec.
  split; [reflexivity |].
  split; [reflexivity |].
  split; [intros H; apply (spec_clamp_in_range _ H) |].
  split; [intros H; apply (spec_clamp_in_range _ H) |].
  intros period m0. unfold MotorSim_new.
  match goal with |- context [if ?b then _ else _] => destruct b end;
    [discriminate |].
  intros [= <-]. split; reflexivity.
Qed.

Lemma motor_1ms_constructed : MotorSim_new 1000000 = inr MotorSimSpec.motor_1ms.
Proof. vm_compute. reflexivity. Qed.

Lemma position_in_range_witness :
  in_range (position (state_ (update_motor_command
                                {| pendulum_msgs.position := 7.5 |}
                                MotorSimSpec.motor_1ms))) = true
  /\ in_range (position (state_ (update_motor_state MotorSimSpec.sin_taylor
                                   MotorSimSpec.motor_1ms))) = true.
Proof.
  destruct (position_in_range_unless_nan MotorSimSpec.sin_taylor MotorSimSpec.motor_1ms
              {| pendulum_msgs.position := 7.5 |}) as (_ & _ & Hc & Hs & _).
  split; [apply Hc; reflexivity | apply Hs; vm_compute; reflexivity].
Defined.

(** C10 as stated fails: a command whose position is a NaN
    passes both comparisons of [update_motor_command], and the simulator's
    position is then a NaN, which is not in the range from 0 to PI. *)
Lemma nan_command_leaves_range :
  MotorSim_new 1000000 = inr MotorSimSpec.motor_1ms
  /\ is_nan (position (state_ (update_motor_command {| pendulum_msgs.position := nan |}
                                 MotorSimSpec.motor_1ms))) = true
  /\ in_range (position (state_ (update_motor_command
                                   {| pendulum_msgs.position := nan |}
                                   MotorSimSpec.motor_1ms))) = false.
Proof. repeat split; vm_compute; reflexivity. Qed.

End MotorSimClaims.

(** * Further properties of the code *)

(** ** The node along arbitrary runs *)

Section NodeRuns.
Import Rclcpp Node NodeSpec RunSpec.

Lemma realtime_loop_effect (counter_bits : N) (ws : list WaitResult)
    (n : PendulumControllerNode) :
  realtime_loop counter_bits ws n
  = inr (tt, fold_left (fun n w => body_effect counter_bits w n) ws n).
Proof.
  revert n. induction ws as [| w rest IH]; intros n; [reflexivity |].
  cbn [realtime_loop fold_left]. unfold mbind, NodeM_bind.
  rewrite realtime_loop_body_spec. apply IH.
Qed.

Lemma body_effect_frame (counter_bits : N) (w : WaitResult)
    (n : PendulumControllerNode) :
  logger (body_effect counter_bits w n) = logger n
  /\ current_state (body_effect counter_bits w n) = current_state n
  /\ deadline_duration_ (body_effect counter_bits w n) = deadline_duration_ n
  /\ proc_settings_ (body_effect counter_bits w n) = proc_settings_ n.
Proof.
  destruct w as [[|] [m|] | |]; try (repeat split; reflexivity).
  cbn [body_effect]. destruct (current_state n) eqn:Hs; cbn; rewrite ?Hs; repeat split.
Qed.

Lemma body_effect_no_sample (counter_bits : N) (w : WaitResult)
    (n : PendulumControllerNode) :
  delivers_sample w = false ->
  controller_ (body_effect counter_bits w n) = controller_ n
  /\ command_message_ (body_effect counter_bits w n) = command_message_ n
  /\ command_pub_ (body_effect counter_bits w n) = command_pub_ n.
Proof.
  destruct w as [[|] [m|] | |]; try discriminate; intros _;
    try (repeat split; reflexivity).
  cbn [body_effect]. destruct (current_state n); repeat split.
Qed.

Lemma body_effect_idle (counter_bits : N) (w : WaitResult)
    (n : PendulumControllerNode) :
  delivers_sample w = false ->
  current_state n <> Lifecycle.Active ->
  body_effect counter_bits w n = n.
Proof.
  destruct w as [[|] [m|] | |]; try discriminate; intros _ Hs; try reflexivity.
  cbn [body_effect]. destruct (current_state n); try reflexivity. congruence.
Qed.

(** X1: The real-time loop does not log and does not touch the lifecycle state,
    the deadline or the process settings, whatever the waits return; waits
    that deliver no sample leave the controller, the command message and the
    publisher alone; and when, besides, the node is not active, the loop
    leaves the whole node exactly as it found it: timeouts are not counted,
    nothing is published. *)
Theorem realtime_loop_frame :
  forall (counter_bits : N) (ws : list WaitResult) (n : PendulumControllerNode),
    exists n', realtime_loop counter_bits ws n = inr (tt, n')
      /\ logger n' = logger n
      /\ current_state n' = current_state n
      /\ deadline_duration_ n' = deadline_duration_ n
      /\ proc_settings_ n' = proc_settings_ n
      /\ (forallb (fun w => negb (delivers_sample w)) ws = true ->
          controller_ n' = controller_ n
          /\ command_message_ n' = command_message_ n
          /\ command_pub_ n' = command_pub_ n
          /\ (current_state n <> Lifecycle.Active -> n' = n)).
Proof.
  intros counter_bits ws n.
  exists (fold_left (fun n w => body_effect counter_bits w n) ws n).
  split; [apply realtime_loop_effect |].
  revert n. induction ws as [| w rest IH]; intros n.
  - cbn. repeat split.
  - cbn [fold_left forallb].
    destruct (body_effect_frame counter_bits w n) as (Hl & Hs & Hd & Hp).
    destruct (IH (body_effect counter_bits w n)) as (Hl' & Hs' & Hd' & Hp' & Hrest).
    split; [rewrite Hl'; exact Hl |]. split; [rewrite Hs'; exact Hs |].
    split; [rewrite Hd'; exact Hd |]. split; [rewrite Hp'; exact Hp |].
    intros Hall. apply andb_prop in Hall as [Hw Hall].
    apply negb_true_iff in Hw.
    destruct (body_effect_no_sample counter_bits w n Hw) as (Hc & Hm & Hpub).
    destruct (Hrest Hall) as (Hc' & Hm' & Hpub' & Hidle).
    split; [rewrite Hc'; exact Hc |]. split; [rewrite Hm'; exact Hm |].
    split; [rewrite Hpub'; exact Hpub |].
    intros Hna. rewrite (body_effect_idle counter_bits w n Hw Hna) in Hidle |- *.
    exact (Hidle Hna).
Qed.

Lemma realtime_loop_frame_witness :
  realtime_loop 32 [Timeout; Empty; Ready true None; Ready false None; Timeout]
    initial_node = inr (tt, initial_node).
Proof.
  destruct (realtime_loop_frame 32
              [Timeout; Empty; Ready true None; Ready false None; Timeout] initial_node)
    as (n' & Hrun & _ & _ & _ & _ & Hidle).
  destruct (Hidle eq_refl) as (_ & _ & _ & Hsame).
  rewrite Hrun, Hsame; [reflexivity | discriminate].
Defined.

(** *** The command channel *)

Lemma step_effect_published (counter_bits : N) (e : Event)
    (n : PendulumControllerNode) :
  exists commands,
    Lifecycle.published (command_pub_ (step_effect counter_bits n e))
    = Lifecycle.published (command_pub_ n) ++ commands
    /\ (length commands <= taken_samples [e])%nat.
Proof.
  destruct e as [[[|] [m|] | |] | m | t]; cbn [step_effect body_effect].
  - unfold sample_effect, Lifecycle.publish. cbn.
    destruct (Lifecycle.enabled_ (command_pub_ n)); cbn.
    + eexists. split; [reflexivity | cbn; lia].
    + exists []. split; [symmetry; apply app_nil_r | cbn; lia].
  - exists []. split; [symmetry; apply app_nil_r | cbn; lia].
  - exists []. split; [symmetry; apply app_nil_r | cbn; lia].
  - exists []. split; [symmetry; apply app_nil_r | cbn; lia].
  - exists []. split; [| cbn; lia].
    destruct (current_state n); symmetry; apply app_nil_r.
  - exists []. split; [symmetry; apply app_nil_r | cbn; lia].
  - exists []. split; [symmetry; apply app_nil_r | cbn; lia].
  - exists []. split; [| cbn; lia]. unfold transition_effect.
    destruct (Lifecycle.goal_state (current_state n) t); destruct t;
      symmetry; apply app_nil_r.
Qed.

Lemma taken_samples_cons (e : Event) (rest : list Event) :
  taken_samples (e :: rest) = (taken_samples [e] + taken_samples rest)%nat.
Proof. destruct e as [w | m | t]; cbn [taken_samples]; lia. Qed.

(** X2: What has been published is never retracted or revised: after any run the
    published commands are the earlier ones followed by new ones, at most one
    per sample the loop has taken; timeouts, teleop messages and lifecycle
    transitions publish nothing. *)
Theorem published_commands_only_grow :
  forall (counter_bits : N) (events : list Event) (n : PendulumControllerNode),
    exists n' commands,
      run counter_bits events n = inr (tt, n')
      /\ Lifecycle.published (command_pub_ n')
         = Lifecycle.published (command_pub_ n) ++ commands
      /\ (length commands <= taken_samples events)%nat.
Proof.
  intros counter_bits events n.
  exists (fold_left (step_effect counter_bits) events n).
  cut (exists commands,
          Lifecycle.published
            (command_pub_ (fold_left (step_effect counter_bits) events n))
          = Lifecycle.published (command_pub_ n) ++ commands
          /\ (length commands <= taken_samples events)%nat).
  { intros (commands & H1 & H2). exists commands.
    split; [apply run_effect_spec | split; assumption]. }
  revert n. induction events as [| e rest IH]; intros n.
  - exists []. split; [symmetry; apply app_nil_r | cbn; lia].
  - cbn [fold_left].
    destruct (step_effect_published counter_bits e n) as (c1 & H1 & L1).
    destruct (IH (step_effect counter_bits n e)) as (c2 & H2 & L2).
    exists (c1 ++ c2). split.
    + rewrite H2, H1, app_assoc. reflexivity.
    + rewrite length_app, taken_samples_cons. lia.
Qed.

(** X3: In the active state of a run from the constructor, a taken sample is
    answered by exactly one published command: the force the controller
    computes from the sample, which is also what the command message
    holds. *)
Theorem active_sample_publishes_one_command :
  forall (counter_bits : N) (events : list Event) (m : JointState.msg)
         (n : PendulumControllerNode),
    run counter_bits events initial_node = inr (tt, n) ->
    current_state n = Lifecycle.Active ->
    exists n',
      realtime_loop_body counter_bits (Ready true (Some m)) n = inr (tt, n')
      /\ controller_ n'
         = Controller.update
             (Controller.set_state (JointState.cart_position m)
                (JointState.cart_velocity m) (JointState.pole_angle m)
                (JointState.pole_velocity m) (controller_ n))
      /\ command_message_ n'
         = {| JointCommand.force := Controller.get_force_command (controller_ n') |}
      /\ Lifecycle.published (command_pub_ n')
         = Lifecycle.published (command_pub_ n) ++ [command_message_ n']
      /\ num_missed_deadlines_ n' = num_missed_deadlines_ n.
Proof.
  intros counter_bits events m n Hrun Hactive.
  rewrite run_effect_spec in Hrun. injection Hrun as <-.
  set (n := fold_left (step_effect counter_bits) events initial_node) in *.
  assert (Hinv : publisher_follows_state n)
    by (apply run_publisher_follows_state; reflexivity).
  unfold publisher_follows_state in Hinv. rewrite Hactive in Hinv.
  exists (sample_effect m n). split; [reflexivity |].
  split; [reflexivity |]. split; [reflexivity |].
  split; [| reflexivity].
  unfold sample_effect. cbn. unfold Lifecycle.publish. rewrite Hinv. reflexivity.
Qed.

Lemma active_sample_witness :
  exists n n',
    run 32 [ TransitionRequested Lifecycle.Configure;
             TransitionRequested Lifecycle.Activate ] initial_node = inr (tt, n)
    /\ realtime_loop_body 32 (Ready true (Some tilted_sample)) n = inr (tt, n')
    /\ length (Lifecycle.published (command_pub_ n')) = 1%nat.
Proof.
  eexists.
  assert (Hrun : run 32 [ TransitionRequested Lifecycle.Configure;
                          TransitionRequested Lifecycle.Activate ] initial_node
                 = inr (tt, fold_left (step_effect 32)
                              [ TransitionRequested Lifecycle.Configure;
                                TransitionRequested Lifecycle.Activate ] initial_node))
    by apply run_effect_spec.
  destruct (active_sample_publishes_one_command 32 _ tilted_sample _ Hrun eq_refl)
    as (n' & Hbody & _ & _ & Hpub & _).
  exists n'. split; [exact Hrun |]. split; [exact Hbody |].
  rewrite Hpub. reflexivity.
Defined.

(** *** Lifecycle transitions *)

(** X4: Activating an inactive node and deactivating it again restores the node
    in every member but the log: the publisher is off again, nothing was
    published, and controller, counter and command message are as before.
    The log gains "Activating", "Deactivating" and one snapshot. *)
Theorem activate_deactivate_round_trip :
  forall (counter_bits : N) (n : PendulumControllerNode),
    current_state n = Lifecycle.Inactive ->
    Lifecycle.enabled_ (command_pub_ n) = false ->
    run counter_bits [ TransitionRequested Lifecycle.Activate;
                       TransitionRequested Lifecycle.Deactivate ] n
    = inr (tt, set_logger
                 (logger n ++ [ {| format := "Activating"; args := [] |};
                                {| format := "Deactivating"; args := [] |} ]
                           ++ render (snapshot_of n)) n).
Proof.
  intros counter_bits n Hs Hoff. rewrite run_effect_spec. do 2 f_equal.
  cbn [fold_left step_effect]. unfold transition_effect.
  destruct n as [st lg t1 t2 t3 dd c k au ps cm [en pub]].
  cbn in Hs, Hoff. subst st en.
  unfold callback_effect, callback_log, set_current_state, set_logger,
    set_command_pub_. cbn.
  rewrite <- app_assoc. reflexivity.
Qed.

Lemma activate_deactivate_witness :
  exists n n',
    run 32 [ TransitionRequested Lifecycle.Configure ] initial_node = inr (tt, n)
    /\ run 32 [ TransitionRequested Lifecycle.Activate;
                TransitionRequested Lifecycle.Deactivate ] n = inr (tt, n')
    /\ command_pub_ n' = command_pub_ n
    /\ current_state n' = Lifecycle.Inactive.
Proof.
  eexists. eexists. split; [apply run_effect_spec |].
  split; [apply activate_deactivate_round_trip; reflexivity |].
  split; reflexivity.
Defined.

Lemma step_effect_logger (counter_bits : N) (e : Event)
    (n : PendulumControllerNode) :
  exists l, logger (step_effect counter_bits n e) = logger n ++ l
    /\ (is_transition_request e = false -> l = []).
Proof.
  destruct e as [w | m | t]; cbn [step_effect is_transition_request].
  - exists []. destruct (body_effect_frame counter_bits w n) as (Hl & _).
    rewrite Hl, app_nil_r. split; [reflexivity | reflexivity].
  - exists []. split; [symmetry; apply app_nil_r | reflexivity].
  - unfold transition_effect.
    destruct (Lifecycle.goal_state (current_state n) t).
    + exists (callback_log t n). split; [destruct t; reflexivity | discriminate].
    + exists []. split; [symmetry; apply app_nil_r | discriminate].
Qed.

(** X5: The log is append-only: after any run it is the earlier log followed by
    new records, and a run without transition requests (loop iterations and
    teleop messages only) adds none. *)
Theorem log_is_append_only :
  forall (counter_bits : N) (events : list Event) (n : PendulumControllerNode),
    exists n' l,
      run counter_bits events n = inr (tt, n')
      /\ logger n' = logger n ++ l
      /\ (forallb (fun e => negb (is_transition_request e)) events = true -> l = []).
Proof.
  intros counter_bits events n.
  exists (fold_left (step_effect counter_bits) events n).
  cut (exists l,
          logger (fold_left (step_effect counter_bits) events n) = logger n ++ l
          /\ (forallb (fun e => negb (is_transition_request e)) events = true
              -> l = [])).
  { intros (l & H1 & H2). exists l.
    split; [apply run_effect_spec | split; assumption]. }
  revert n. induction events as [| e rest IH]; intros n.
  - exists []. split; [symmetry; apply app_nil_r | reflexivity].
  - cbn [fold_left forallb].
    destruct (step_effect_logger counter_bits e n) as (l1 & H1 & E1).
    destruct (IH (step_effect counter_bits n e)) as (l2 & H2 & E2).
    exists (l1 ++ l2). split.
    + rewrite H2, H1, app_assoc. reflexivity.
    + intros Hall. apply andb_prop in Hall as [He Hall].
      apply negb_true_iff in He. rewrite (E1 He), (E2 Hall). reflexivity.
Qed.

Lemma step_effect_finalized (counter_bits : N) (e : Event)
    (n : PendulumControllerNode) :
  current_state n = Lifecycle.Finalized ->
  current_state (step_effect counter_bits n e) = Lifecycle.Finalized
  /\ logger (step_effect counter_bits n e) = logger n
  /\ num_missed_deadlines_ (step_effect counter_bits n e) = num_missed_deadlines_ n
  /\ Lifecycle.enabled_ (command_pub_ (step_effect counter_bits n e))
     = Lifecycle.enabled_ (command_pub_ n).
Proof.
  intros Hs. destruct e as [[[|] [m|] | |] | m | t]; cbn [step_effect body_effect];
    try (repeat split; first [exact Hs | reflexivity]).
  - unfold sample_effect. cbn. rewrite publish_keeps_flag.
    repeat split; first [exact Hs | reflexivity].
  - rewrite Hs. repeat split; first [exact Hs | reflexivity].
  - unfold transition_effect. rewrite Hs. destruct t; cbn;
      repeat split; first [exact Hs | reflexivity].
Qed.

(** X6: Finalized is final: once the node is there, no run leaves the state, no
    callback runs again (the log stays as it is), no timeout is counted, and
    the publisher's activation flag stays whatever it was on entry. *)
Theorem finalized_is_absorbing :
  forall (counter_bits : N) (events : list Event) (n : PendulumControllerNode),
    current_state n = Lifecycle.Finalized ->
    exists n', run counter_bits events n = inr (tt, n')
      /\ current_state n' = Lifecycle.Finalized
      /\ logger n' = logger n
      /\ num_missed_deadlines_ n' = num_missed_deadlines_ n
      /\ Lifecycle.enabled_ (command_pub_ n') = Lifecycle.enabled_ (command_pub_ n).
Proof.
  intros counter_bits events n Hs.
  exists (fold_left (step_effect counter_bits) events n).
  split; [apply run_effect_spec |].
  revert n Hs. induction events as [| e rest IH]; intros n Hs.
  - repeat split. exact Hs.
  - cbn [fold_left].
    destruct (step_effect_finalized counter_bits e n Hs) as (Hs1 & Hl1 & Hc1 & He1).
    destruct (IH _ Hs1) as (Hs2 & Hl2 & Hc2 & He2).
    split; [exact Hs2 |]. split; [rewrite Hl2; exact Hl1 |].
    split; [rewrite Hc2; exact Hc1 | rewrite He2; exact He1].
Qed.

Lemma finalized_witness :
  exists n n',
    run 32 [ TransitionRequested Lifecycle.Shutdown ] initial_node = inr (tt, n)
    /\ run 32 [ TransitionRequested Lifecycle.Configure; WaitReturned Timeout;
                TransitionRequested Lifecycle.Activate; WaitReturned Timeout ] n
       = inr (tt, n')
    /\ current_state n' = Lifecycle.Finalized
    /\ num_missed_deadlines_ n' = 0.
Proof.
  eexists.
  assert (Hrun : run 32 [ TransitionRequested Lifecycle.Shutdown ] initial_node
                 = inr (tt, fold_left (step_effect 32)
                              [ TransitionRequested Lifecycle.Shutdown ] initial_node))
    by apply run_effect_spec.
  destruct (finalized_is_absorbing 32
              [ TransitionRequested Lifecycle.Configure; WaitReturned Timeout;
                TransitionRequested Lifecycle.Activate; WaitReturned Timeout ]
              _ (eq_refl : current_state
                             (fold_left (step_effect 32)
                                [ TransitionRequested Lifecycle.Shutdown ] initial_node)
                           = Lifecycle.Finalized))
    as (n' & Hrun' & Hs & _ & Hc & _).
  exists n'. split; [exact Hrun |]. split; [exact Hrun' |].
  split; [exact Hs | rewrite Hc; reflexivity].
Defined.

(** *** The constructor *)

(** X7: Overrides of names the constructor does not declare are ignored: when
    none of the declared names is overridden, whatever else the options
    hold, the constructor succeeds and builds the node of the defaults. *)
Theorem undeclared_overrides_are_ignored :
  forall options : NodeOptions,
    Forall (fun name => options !! name = None) declared_parameters ->
    PendulumControllerNode_new options = inr initial_node.
Proof.
  intros options H. unfold declared_parameters in H.
  repeat match goal with
         | H : Forall _ (_ :: _) |- _ =>
             let H1 := fresh "Hname" in
             apply Forall_cons in H as [H1 H]
         end.
  unfold PendulumControllerNode_new, declare_parameter.
  repeat match goal with
         | H : options !! _ = None |- _ => rewrite H; clear H
         end.
  reflexivity.
Qed.

Lemma undeclared_overrides_witness :
  PendulumControllerNode_new
    {[ "deadline_ms" := PARAMETER_INTEGER 7; "robot_name" := PARAMETER_STRING "p" ]}
  = inr initial_node.
Proof.
  apply undeclared_overrides_are_ignored.
  unfold declared_parameters. repeat constructor.
Defined.

End NodeRuns.

(** ** [main]: from the parameters to the configuration calls *)

Section MainRuns.
Import Rclcpp Utils Main RunSpec.

Lemma declare_integer_parameter (options : NodeOptions) (name : string) (d z : Z) :
  declare_parameter as_integer options name d = inr z ->
  z = integer_parameter options name d.
Proof.
  unfold declare_parameter, integer_parameter.
  destruct (options !! name) as [[] |]; cbn; congruence.
Qed.

Lemma declare_bool_parameter (options : NodeOptions) (name : string) (d b : bool) :
  declare_parameter as_bool options name d = inr b ->
  b = bool_parameter options name d.
Proof.
  unfold declare_parameter, bool_parameter.
  destruct (options !! name) as [[] |]; cbn; congruence.
Qed.

(** X8: The configuration calls of [main] are read off four parameters: when
    the node is built, the real-time thread calls [configure_process_priority]
    once, with "proc_settings.process_priority" and "proc_settings.cpu_affinity"
    (0 and 0 by default), and the main thread calls [lock_process_memory] with
    "proc_settings.lock_memory_size_mb" exactly when
    "proc_settings.lock_memory" is true; no other parameter enters. *)
Theorem main_calls_follow_parameters :
  forall (options : NodeOptions) (n : Node.PendulumControllerNode),
    Node.PendulumControllerNode_new options = inr n ->
    rt_thread (Node.proc_settings_ n)
    = [ call_configure_process_priority
          (integer_parameter options "proc_settings.process_priority" 0)
          (integer_parameter options "proc_settings.cpu_affinity" 0) ]
    /\ main_thread (Node.proc_settings_ n)
       = (if bool_parameter options "proc_settings.lock_memory" false
          then [ call_lock_process_memory
                   (integer_parameter options "proc_settings.lock_memory_size_mb" 0) ]
          else []).
Proof.
  intros options n.
  unfold Node.PendulumControllerNode_new, mbind, Result_bind, mret, Result_ret.
  repeat match goal with
         | |- context [match ?x with inl _ => _ | inr _ => _ end] =>
             destruct x eqn:?; try discriminate
         end.
  intros [= <-].
  repeat match goal with
         | H : declare_parameter as_integer _ _ _ = inr _ |- _ =>
             apply declare_integer_parameter in H
         | H : declare_parameter as_bool _ _ _ = inr _ |- _ =>
             apply declare_bool_parameter in H
         end.
  subst. unfold rt_thread, main_thread. cbn. split; reflexivity.
Qed.

Lemma main_calls_witness :
  exists n,
    Node.PendulumControllerNode_new
      {[ "proc_settings.lock_memory" := PARAMETER_BOOL true;
         "proc_settings.lock_memory_size_mb" := PARAMETER_INTEGER 64;
         "proc_settings.process_priority" := PARAMETER_INTEGER 80 ]} = inr n
    /\ configuration_calls (Node.proc_settings_ n)
       = [ call_configure_process_priority 80 0; call_lock_process_memory 64 ].
Proof.
  destruct (Node.PendulumControllerNode_new
              {[ "proc_settings.lock_memory" := PARAMETER_BOOL true;
                 "proc_settings.lock_memory_size_mb" := PARAMETER_INTEGER 64;
                 "proc_settings.process_priority" := PARAMETER_INTEGER 80 ]})
    as [e | n] eqn:Hnew.
  - exfalso. vm_compute in Hnew. discriminate Hnew.
  - exists n. split; [reflexivity |].
    destruct (main_calls_follow_parameters _ _ Hnew) as [Hrt Hmain].
    unfold configuration_calls. rewrite Hrt, Hmain.
    vm_compute. reflexivity.
Defined.

End MainRuns.

(** ** The simulator along arbitrary sequences of operations *)

Section MotorSimRunsProperties.
Import MotorSim MotorSimRuns.
#[local] Open Scope float_scope.

(** Clamping twice is clamping once, NaN included. *)
Lemma spec_clamp_idempotent (x : float) :
  spec_clamp 0 PI (spec_clamp 0 PI x) = spec_clamp 0 PI x.
Proof.
  destruct (spec_clamp_cases x) as [-> | [-> | (-> & Hhi & Hlo)]];
    [reflexivity | reflexivity |].
  unfold spec_clamp. rewrite Hhi, Hlo. reflexivity.
Qed.

Lemma spec_clamp_in_range_or_nan (x : float) :
  in_range_or_nan (spec_clamp 0 PI x) = true.
Proof.
  unfold in_range_or_nan. destruct (is_nan x) eqn:Hx.
  - rewrite (spec_clamp_nan x Hx), Hx. apply orb_true_r.
  - rewrite (spec_clamp_in_range x Hx). reflexivity.
Qed.

Lemma apply_clamps (sin : float -> float) (m : MotorSim) (op : Operation) :
  exists x v a,
    apply sin m op
    = {| publish_period_ := publish_period_ m; dt_ := dt_ m;
         properties_ := properties_ m;
         state_ := {| position := spec_clamp 0 PI x; velocity := v;
                      acceleration := a; torque := torque (state_ m) |} |}.
Proof.
  destruct op as [msg |]; cbn [apply].
  - rewrite update_motor_command_spec. do 3 eexists. reflexivity.
  - rewrite update_motor_state_spec. do 3 eexists. reflexivity.
Qed.

(** X9: A command erases the previous command: after [update_motor_command] the
    position is that of the last command alone, and repeating a command
    changes nothing. *)
Theorem last_command_wins :
  forall (msg1 msg2 : pendulum_msgs.JointCommand) (m : MotorSim),
    update_motor_command msg2 (update_motor_command msg1 m)
    = update_motor_command msg2 m
    /\ update_motor_command msg1 (update_motor_command msg1 m)
       = update_motor_command msg1 m.
Proof.
  intros msg1 msg2 m. rewrite !update_motor_command_spec. split; reflexivity.
Qed.

(** X10: After any operation, commanding the simulator to the position it is at
    changes nothing: the limits are already enforced on what the operation
    left, also when that is a NaN. *)
Theorem commanding_current_position_is_noop :
  forall (sin : float -> float) (m : MotorSim) (op : Operation),
    let m' := apply sin m op in
    update_motor_command {| pendulum_msgs.position := position (state_ m') |} m' = m'.
Proof.
  intros sin m op. cbv zeta.
  destruct (apply_clamps sin m op) as (x & v & a & ->).
  rewrite update_motor_command_spec. cbn [pendulum_msgs.position state_ position].
  rewrite spec_clamp_idempotent. reflexivity.
Qed.

(** X11: Whatever the state before and whatever [std::sin] returns, after at least
    one operation the position is a number of the range from 0 to PI or a
    NaN: never an infinity, never a number outside the range. *)
Theorem position_is_in_range_or_nan :
  forall (sin : float -> float) (ops : list Operation) (op : Operation)
         (m : MotorSim),
    in_range_or_nan (position (state_ (apply_all sin (ops ++ [op]) m))) = true.
Proof.
  intros sin ops op m. unfold apply_all. rewrite fold_left_app. cbn [fold_left].
  destruct (apply_clamps sin (fold_left (apply sin) ops m) op) as (x & v & a & ->).
  apply spec_clamp_in_range_or_nan.
Qed.

Lemma apply_all_frame (sin : float -> float) (ops : list Operation) (m : MotorSim) :
  publish_period_ (apply_all sin ops m) = publish_period_ m
  /\ dt_ (apply_all sin ops m) = dt_ m
  /\ properties_ (apply_all sin ops m) = properties_ m
  /\ torque (state_ (apply_all sin ops m)) = torque (state_ m).
Proof.
  revert m. induction ops as [| op rest IH]; intros m; [repeat split |].
  unfold apply_all in *. cbn [fold_left].
  destruct (IH (apply sin m op)) as (H1 & H2 & H3 & H4).
  destruct (apply_clamps sin m op) as (x & v & a & E).
  rewrite H1, H2, H3, H4, E. repeat split.
Qed.

(** X12: A simulator the constructor has built has a period other than 0 and a
    time step that is the period divided by 1e9, neither zero nor a NaN; and
    no sequence of operations changes the period, the time step or the
    pendulum's properties, nor ever gives the torque a value other than its
    initial 0. *)
Theorem constructed_simulator_invariants :
  forall (sin : float -> float) (period : Z) (m0 : MotorSim) (ops : list Operation),
    MotorSim_new period = inr m0 ->
    let m := apply_all sin ops m0 in
    period <> 0%Z
    /\ publish_period_ m = period
    /\ dt_ m = double_of_int64 period / (1000.0 * 1000.0 * 1000.0)
    /\ is_nan (dt_ m) = false
    /\ (dt_ m =? 0) = false
    /\ properties_ m = default_properties
    /\ torque (state_ m) = 0.
Proof.
  intros sin period m0 ops Hnew. cbv zeta.
  destruct (apply_all_frame sin ops m0) as (H1 & H2 & H3 & H4).
  rewrite H1, H2, H3, H4. clear H1 H2 H3 H4.
  split.
  - intros ->. vm_compute in Hnew. discriminate Hnew.
  - revert Hnew. unfold MotorSim_new.
    destruct (is_nan (double_of_int64 period / (1000.0 * 1000.0 * 1000.0))) eqn:Hnan;
      [discriminate |].
    destruct (double_of_int64 period / (1000.0 * 1000.0 * 1000.0) =? 0) eqn:Hzero;
      [discriminate |].
    cbn [orb]. intros [= <-]. cbn. repeat split; assumption.
Qed.

Lemma constructed_simulator_witness :
  MotorSim_new 1000000 = inr MotorSimSpec.motor_1ms
  /\ torque (state_ (apply_all MotorSimSpec.sin_taylor
                       [ Step; Command {| pendulum_msgs.position := 2 |}; Step ]
                       MotorSimSpec.motor_1ms)) = 0
  /\ dt_ (apply_all MotorSimSpec.sin_taylor
            [ Step; Command {| pendulum_msgs.position := 2 |}; Step ]
            MotorSimSpec.motor_1ms) = 0.001.
Proof.
  destruct (constructed_simulator_invariants MotorSimSpec.sin_taylor 1000000
              MotorSimSpec.motor_1ms
              [ Step; Command {| pendulum_msgs.position := 2 |}; Step ]
              motor_1ms_constructed) as (_ & _ & Hdt & _ & _ & _ & Htorque).
  split; [exact motor_1ms_constructed |].
  split; [exact Htorque |]. rewrite Hdt. vm_compute. reflexivity.
Defined.

(** X13: The stored acceleration is an output only: [update_motor_state]
    overwrites it before reading it, so the step is the same whatever
    acceleration the state held, and the position it leaves depends on the
    position, velocity and torque before the step, the properties and the
    time step alone. *)
Theorem stored_acceleration_is_not_an_input :
  forall (sin : float -> float) (a : float) (m : MotorSim),
    update_motor_state sin (set_acceleration a m) = update_motor_state sin m.
Proof.
  intros sin a m. rewrite !update_motor_state_spec. reflexivity.
Qed.

(** *** The order of binary64 and the limits *)

Lemma SFltb_leb_trans (x y z : spec_float) :
  SFltb x y = true -> SFleb y z = true -> SFltb x z = true.
Proof.
  unfold SFltb, SFleb.
  destruct x as [s1 | s1 | | s1 m1 e1], y as [s2 | s2 | | s2 m2 e2],
    z as [s3 | s3 | | s3 m3 e3]; cbn [SFcompare]; try discriminate; sf_order.
Qed.

Lemma SFleb_ltb_trans (x y z : spec_float) :
  SFleb x y = true -> SFltb y z = true -> SFltb x z = true.
Proof.
  unfold SFltb, SFleb.
  destruct x as [s1 | s1 | | s1 m1 e1], y as [s2 | s2 | | s2 m2 e2],
    z as [s3 | s3 | | s3 m3 e3]; cbn [SFcompare]; try discriminate; sf_order.
Qed.

Lemma SFcompare_Eq_finite (s : bool) (m : positive) (e : Z) (y : spec_float) :
  SFcompare (S754_finite s m e) y = Some Eq -> y = S754_finite s m e.
Proof.
  destruct y as [s2 | s2 | | s2 m2 e2]; cbn [SFcompare]; try discriminate;
    try (destruct s; discriminate); try (destruct s2; discriminate).
  destruct s, s2; try discriminate;
    destruct (Z.compare_spec e e2); try discriminate;
    change (Pos.compare_cont Eq m m2) with (Pos.compare m m2);
    destruct (Pos.compare_spec m m2); cbn [CompOpp]; try discriminate;
    intros _; subst; reflexivity.
Qed.

Lemma ltb_leb_trans (x y z : float) :
  (x <? y) = true -> (y <=? z) = true -> (x <? z) = true.
Proof. rewrite !FloatAxioms.ltb_spec, FloatAxioms.leb_spec. apply SFltb_leb_trans. Qed.

Lemma leb_ltb_trans (x y z : float) :
  (x <=? y) = true -> (y <? z) = true -> (x <? z) = true.
Proof. rewrite !FloatAxioms.ltb_spec, FloatAxioms.leb_spec. apply SFleb_ltb_trans. Qed.

Lemma leb_not_ltb (x y : float) :
  (x <=? y) = true -> (y <? x) = false.
Proof.
  rewrite FloatAxioms.leb_spec, FloatAxioms.ltb_spec. unfold SFleb, SFltb.
  rewrite (SFcompare_antisym (Prim2SF x) (Prim2SF y)).
  destruct (SFcompare (Prim2SF x) (Prim2SF y)) as [[| |] |]; cbn; congruence.
Qed.

Lemma leb_numbers (x y : float) :
  (x <=? y) = true -> is_nan x = false /\ is_nan y = false.
Proof.
  intros H.
  assert (Hx : Prim2SF x <> S754_nan /\ Prim2SF y <> S754_nan).
  { rewrite FloatAxioms.leb_spec in H. unfold SFleb in H.
    destruct (Prim2SF x), (Prim2SF y); cbn in H; split; congruence. }
  destruct Hx as [Hx Hy]. split.
  - destruct (is_nan x) eqn:E; [| reflexivity]. exfalso. apply Hx.
    unfold is_nan in E. rewrite FloatAxioms.eqb_spec in E.
    destruct (Prim2SF x) as [s | s | | s m e]; try reflexivity; exfalso.
    + discriminate E.
    + destruct s; discriminate E.
    + unfold SFeqb in E. cbn in E.
      destruct s; rewrite Z.compare_refl, Pos.compare_cont_refl in E; discriminate E.
  - destruct (is_nan y) eqn:E; [| reflexivity]. exfalso. apply Hy.
    unfold is_nan in E. rewrite FloatAxioms.eqb_spec in E.
    destruct (Prim2SF y) as [s | s | | s m e]; try reflexivity; exfalso.
    + discriminate E.
    + destruct s; discriminate E.
    + unfold SFeqb in E. cbn in E.
      destruct s; rewrite Z.compare_refl, Pos.compare_cont_refl in E; discriminate E.
Qed.

(** X14: A commanded position within the limits is obeyed to the bit. *)
Theorem commands_within_limits_are_obeyed :
  forall (msg : pendulum_msgs.JointCommand) (m : MotorSim),
    in_range (pendulum_msgs.position msg) = true ->
    position (state_ (update_motor_command msg m)) = pendulum_msgs.position msg.
Proof.
  intros msg m H. unfold in_range in H. apply andb_prop in H as [Hlo Hhi].
  rewrite update_motor_command_spec. cbn [set_position state_ position].
  unfold spec_clamp. rewrite (leb_not_ltb _ _ Hhi), (leb_not_ltb _ _ Hlo). reflexivity.
Qed.

Lemma commands_within_limits_witness :
  position (state_ (update_motor_command {| pendulum_msgs.position := 1.5 |}
                      MotorSimSpec.motor_1ms)) = 1.5.
Proof. apply commands_within_limits_are_obeyed. reflexivity. Defined.

(** X15: A commanded position at or above PI, plus infinity included, gives
    exactly PI; one at or below 0, minus infinity included, gives a zero
    (the command's own zero when the command is a zero, of either sign). *)
Theorem commands_beyond_limits_saturate :
  forall (msg : pendulum_msgs.JointCommand) (m : MotorSim),
    ((PI <=? pendulum_msgs.position msg) = true ->
     position (state_ (update_motor_command msg m)) = PI)
    /\ ((pendulum_msgs.position msg <=? 0) = true ->
        (position (state_ (update_motor_command msg m)) =? 0) = true).
Proof.
  intros msg m. rewrite update_motor_command_spec. cbn [set_position state_ position].
  set (p := pendulum_msgs.position msg). unfold spec_clamp. split.
  - intros H. destruct (PI <? p) eqn:Hlt; [reflexivity |].
    assert (Heq : p = PI).
    { apply Prim2SF_inj.
      rewrite FloatAxioms.leb_spec in H. rewrite FloatAxioms.ltb_spec in Hlt.
      unfold SFleb in H. unfold SFltb in Hlt.
      destruct (SFcompare (Prim2SF PI) (Prim2SF p)) as [[| |] |] eqn:E;
        try discriminate.
      change (Prim2SF PI) with (S754_finite false 7074237752028906 (-51)) in E.
      apply SFcompare_Eq_finite in E. rewrite E. reflexivity. }
    rewrite Heq. reflexivity.
  - intros H.
    assert (Hhi : (PI <? p) = false).
    { destruct (PI <? p) eqn:Hlt; [| reflexivity].
      pose proof (leb_ltb_trans 0 PI p eq_refl Hlt) as H0.
      rewrite (leb_not_ltb _ _ H) in H0. discriminate H0. }
    rewrite Hhi. destruct (p <? 0) eqn:Hlt; [reflexivity |].
    rewrite FloatAxioms.leb_spec in H. rewrite FloatAxioms.ltb_spec in Hlt.
    rewrite FloatAxioms.eqb_spec. unfold SFleb in H. unfold SFltb in Hlt. unfold SFeqb.
    destruct (SFcompare (Prim2SF p) (Prim2SF 0)) as [[| |] |]; congruence.
Qed.

Lemma commands_beyond_limits_witness :
  position (state_ (update_motor_command {| pendulum_msgs.position := infinity |}
                      MotorSimSpec.motor_1ms)) = PI
  /\ (position (state_ (update_motor_command {| pendulum_msgs.position := -0.25 |}
                          MotorSimSpec.motor_1ms)) =? 0) = true.
Proof.
  split.
  - apply (proj1 (commands_beyond_limits_saturate
                    {| pendulum_msgs.position := infinity |} MotorSimSpec.motor_1ms)).
    reflexivity.
  - apply (proj2 (commands_beyond_limits_saturate
                    {| pendulum_msgs.position := -0.25 |} MotorSimSpec.motor_1ms)).
    reflexivity.
Defined.

(** X16: The limits keep the order of the commands: of two commanded positions,
    the larger never gives the smaller simulator position. *)
Theorem commanded_position_is_monotone :
  forall (msg1 msg2 : pendulum_msgs.JointCommand) (m1 m2 : MotorSim),
    (pendulum_msgs.position msg1 <=? pendulum_msgs.position msg2) = true ->
    (position (state_ (update_motor_command msg1 m1))
     <=? position (state_ (update_motor_command msg2 m2))) = true.
Proof.
  intros msg1 msg2 m1 m2 Hle. rewrite !update_motor_command_spec.
  cbn [set_position state_ position].
  set (x := pendulum_msgs.position msg1) in *.
  set (y := pendulum_msgs.position msg2) in *.
  destruct (leb_numbers x y Hle) as [Hx Hy].
  destruct (spec_clamp_cases x) as [Ex | [Ex | (Ex & Hxhi & Hxlo)]];
    destruct (spec_clamp_cases y) as [Ey | [Ey | (Ey & Hyhi & Hylo)]];
    rewrite Ex, Ey; try reflexivity.
  - (* x above PI, y clamped to 0 *)
    exfalso. unfold spec_clamp in Ex, Ey.
    destruct (PI <? x) eqn:Hxhi.
    + pose proof (ltb_leb_trans PI x y Hxhi Hle) as Hyhi. rewrite Hyhi in Ey.
      vm_compute in Ey. discriminate Ey.
    + destruct (x <? 0) eqn:Hxlo.
      * vm_compute in Ex. discriminate Ex.
      * rewrite Ex in Hxhi, Hxlo. destruct (PI <? y) eqn:Hyhi.
        { vm_compute in Ey. discriminate Ey. }
        destruct (y <? 0) eqn:Hylo.
        { pose proof (leb_ltb_trans x y 0 Hle Hylo) as H0. rewrite Ex in H0.
          vm_compute in H0. discriminate H0. }
        rewrite Ey in Hle. rewrite Ex in Hle. vm_compute in Hle. discriminate Hle.
  - (* x above PI, y passes *)
    unfold spec_clamp in Ex. destruct (PI <? x) eqn:Hxhi'.
    + pose proof (ltb_leb_trans PI x y Hxhi' Hle) as H0. congruence.
    + destruct (x <? 0) eqn:Hxlo'.
      * vm_compute in Ex. discriminate Ex.
      * rewrite Ex in Hle. exact Hle.
  - (* x at 0, y passes *)
    apply not_ltb_leb; [reflexivity | exact Hy | exact Hylo].
  - (* x passes, y at PI *)
    apply not_ltb_leb; [exact Hx | reflexivity | exact Hxhi].
  - (* x passes, y at 0 *)
    unfold spec_clamp in Ey. destruct (PI <? y) eqn:Hyhi'.
    + vm_compute in Ey. discriminate Ey.
    + destruct (y <? 0) eqn:Hylo'.
      * pose proof (leb_ltb_trans x y 0 Hle Hylo') as H0. congruence.
      * rewrite Ey in Hle. exact Hle.
  - exact Hle.
Qed.

Lemma commanded_position_monotone_witness :
  (position (state_ (update_motor_command {| pendulum_msgs.position := -3 |}
                       MotorSimSpec.motor_1ms))
   <=? position (state_ (update_motor_command {| pendulum_msgs.position := 9 |}
                           MotorSimSpec.motor_1ms))) = true.
Proof. apply commanded_position_is_monotone. reflexivity. Defined.

End MotorSimRunsProperties.
